(** * Recorder models: persistence mapping of events and states

    A shallow embedding of [models.py]: the attribute filter, the
    timestamp normaliser, the event and state codecs and the run window
    query, followed by the properties the specification states about
    them. *)

From Stdlib Require Import String Ascii List ZArith Bool Lia.
From Stdlib Require Import DecimalString DecimalPos DecimalN DecimalZ.
Import ListNotations.
Local Open Scope string_scope.
Local Open Scope list_scope.

(** ** Python values *)

(** A time zone object.  [UTC] is the singleton the code compares with
    ([dt_util.UTC]); any other zone object is known by its offset from
    UTC in microseconds (an offset of zero is still a different
    object). *)
Inductive tzinfo : Type :=
| UTC
| FixedOffset (utcoffset : Z).

(** A [datetime]: the reading of its clock fields, counted in
    microseconds on the proleptic calendar, and its optional zone. *)
Record datetime : Type := mkDatetime {
  clock : Z;
  dt_tzinfo : option tzinfo
}.

Definition utcoffset_of (tz : tzinfo) : Z :=
  match tz with
  | UTC => 0
  | FixedOffset o => o
  end.

(** The absolute instant a timestamp denotes: a naive one is read as
    UTC, which is how the recorder stores it. *)
Definition instant (ts : datetime) : Z :=
  match dt_tzinfo ts with
  | None => clock ts
  | Some tz => clock ts - utcoffset_of tz
  end.

(** [homeassistant.core.Context]: the correlation identifiers. *)
Record Context : Type := mkContext {
  ctx_id : option string;
  ctx_user_id : option string
}.

(** The values that travel in event data and state attributes.  A state
    object carries its attribute mapping, so it is part of the same
    inductive type. *)
Unset Elimination Schemes.
Inductive pyval : Type :=
| PNone
| PBool (b : bool)
| PInt (n : Z)
| PStr (s : string)
| PDatetime (d : datetime)
| PList (items : list pyval)
| PDict (items : list (string * pyval))
| PState (entity_id domain state : string)
         (attributes : list (string * pyval))
         (last_changed last_updated : option datetime)
         (context : Context).
Set Elimination Schemes.

(** ** Dictionaries

    A Python [dict] keeps its keys unique and in insertion order. *)
Definition dict (V : Type) : Type := list (string * V).

Definition keys {V} (d : dict V) : list string := map fst d.

Fixpoint dict_get {V} (k : string) (d : dict V) : option V :=
  match d with
  | [] => None
  | (k', v) :: rest => if String.eqb k k' then Some v else dict_get k rest
  end.

(** [d[k] = v]: an existing key keeps its place, a new one goes last. *)
Fixpoint dict_set {V} (k : string) (v : V) (d : dict V) : dict V :=
  match d with
  | [] => [(k, v)]
  | (k', v') :: rest =>
      if String.eqb k k' then (k', v) :: rest
      else (k', v') :: dict_set k v rest
  end.

(** [dict(pairs)] *)
Definition dict_of_items {V} (pairs : list (string * V)) : dict V :=
  fold_left (fun d kv => dict_set (fst kv) (snd kv) d) pairs [].

(** [d.items()] *)
Definition dict_items {V} (d : dict V) : list (string * V) := d.

(** [d.copy()]: a new mapping with the same entries. *)
Definition dict_copy {V} (d : dict V) : dict V := dict_of_items (dict_items d).

(** The invariant of a Python mapping. *)
Definition dict_ok {V} (d : dict V) : Prop := NoDup (keys d).

(** ** Constants of [homeassistant.const] *)

(** Modelled from the spec: the attribute names are constants of
    [homeassistant.const], which is not part of this repository's
    sources; the spec names them as entity identifier, area identifier,
    entity picture, hidden flag, icon, device class and editable flag. *)
Definition ATTR_ENTITY_ID : string := "entity_id".
Definition ATTR_AREA_ID : string := "area_id".
Definition ATTR_ENTITY_PICTURE : string := "entity_picture".
Definition ATTR_HIDDEN : string := "hidden".
Definition ATTR_ICON : string := "icon".
Definition ATTR_DEVICE_CLASS : string := "device_class".
Definition ATTR_EDITABLE : string := "editable".

(** Modelled from the spec: the event type of a state change, given in
    the spec as the string [state_changed]. *)
Definition EVENT_STATE_CHANGED : string := "state_changed".

(** ** The attribute filter *)

Definition KEYS_TO_FILTER_FROM_DB : list string :=
  [ATTR_ENTITY_ID; ATTR_AREA_ID; ATTR_ENTITY_PICTURE; ATTR_HIDDEN;
   ATTR_ICON; ATTR_DEVICE_CLASS; ATTR_EDITABLE].

(** [key in KEYS_TO_FILTER_FROM_DB] *)
Definition in_keys (key : string) (l : list string) : bool :=
  existsb (String.eqb key) l.

Definition _filter_attributes {V} (unfiltered_dict : dict V) : dict V :=
  dict_of_items
    (filter (fun kv => negb (in_keys (fst kv) KEYS_TO_FILTER_FROM_DB))
            (dict_items unfiltered_dict)).

(** ** The timestamp normaliser *)

(** [dt_util.UTC.localize(ts)]: tags a naive timestamp as UTC. *)
Definition UTC_localize (ts : datetime) : datetime :=
  mkDatetime (clock ts) (Some UTC).

(** [datetime.astimezone(UTC)]: the same instant on the UTC clock. *)
Definition astimezone_UTC (ts : datetime) : datetime :=
  mkDatetime (instant ts) (Some UTC).

(** [dt_util.as_utc(ts)] on an aware timestamp: a timestamp already
    carrying [UTC] is returned as it is. *)
Definition as_utc (ts : datetime) : datetime :=
  match dt_tzinfo ts with
  | Some UTC => ts
  | _ => astimezone_UTC ts
  end.

Definition _process_timestamp (ts : option datetime) : option datetime :=
  match ts with
  | None => None
  | Some ts =>
      match dt_tzinfo ts with
      | None => Some (UTC_localize ts)
      | Some _ => Some (as_utc ts)
      end
  end.

(** ** JSON text

    The document model of the [json] module and its text form, as
    [json.dumps] writes it with the default separators and
    [ensure_ascii], and as [json.loads] reads it.  Strings are sequences
    of code points below 256; floats are outside the model, so a number
    with a fraction or an exponent is not read. *)

Unset Elimination Schemes.
Inductive json : Type :=
| JNull
| JBool (b : bool)
| JInt (n : Z)
| JStr (s : string)
| JArr (items : list json)
| JObj (members : list (string * json)).
Set Elimination Schemes.

Definition dquote : ascii := "034"%char.
Definition backslash : ascii := "092"%char.

Definition hex_digit (n : N) : ascii :=
  if N.ltb n 10 then ascii_of_N (48 + n) else ascii_of_N (87 + n).

(** The replacement [json.encoder] makes for one character. *)
Definition escape_char (c : ascii) : string :=
  let n := N_of_ascii c in
  if N.eqb n 34 then String backslash (String dquote EmptyString)
  else if N.eqb n 92 then String backslash (String backslash EmptyString)
  else if N.eqb n 8 then String backslash "b"
  else if N.eqb n 9 then String backslash "t"
  else if N.eqb n 10 then String backslash "n"
  else if N.eqb n 12 then String backslash "f"
  else if N.eqb n 13 then String backslash "r"
  else if N.ltb n 32 || N.ltb 126 n then
    String backslash
      (String "u" (String "0" (String "0"
        (String (hex_digit (N.div n 16))
          (String (hex_digit (N.modulo n 16)) EmptyString)))))
  else String c EmptyString.

Fixpoint escape_string (s : string) : string :=
  match s with
  | EmptyString => EmptyString
  | String c rest => (escape_char c ++ escape_string rest)%string
  end.

Definition write_string (s : string) : string :=
  String dquote (escape_string s ++ String dquote EmptyString)%string.

Definition write_int (n : Z) : string :=
  NilEmpty.string_of_int (Z.to_int n).

Fixpoint write_json (j : json) : string :=
  match j with
  | JNull => "null"
  | JBool true => "true"
  | JBool false => "false"
  | JInt n => write_int n
  | JStr s => write_string s
  | JArr items =>
      match items with
      | [] => "[]"
      | first :: others =>
          ("[" ++ write_json first ++
           (fix write_rest (l : list json) : string :=
              match l with
              | [] => "]"
              | x :: l' => ", " ++ write_json x ++ write_rest l'
              end) others)%string
      end
  | JObj members =>
      match members with
      | [] => "{}"
      | (k, v) :: others =>
          ("{" ++ write_string k ++ ": " ++ write_json v ++
           (fix write_rest (l : list (string * json)) : string :=
              match l with
              | [] => "}"
              | (k', v') :: l' =>
                  ", " ++ write_string k' ++ ": " ++ write_json v' ++
                  write_rest l'
              end) others)%string
      end
  end.

Definition is_ws (c : ascii) : bool :=
  let n := N_of_ascii c in
  N.eqb n 32 || N.eqb n 9 || N.eqb n 10 || N.eqb n 13.

Fixpoint skip_ws (s : string) : string :=
  match s with
  | String c rest => if is_ws c then skip_ws rest else s
  | EmptyString => s
  end.

Fixpoint strip_prefix (p s : string) : option string :=
  match p, s with
  | EmptyString, _ => Some s
  | String a p', String b s' =>
      if Ascii.eqb a b then strip_prefix p' s' else None
  | String _ _, EmptyString => None
  end.

Definition hex_value (c : ascii) : option N :=
  let n := N_of_ascii c in
  if N.leb 48 n && N.leb n 57 then Some (n - 48)%N
  else if N.leb 97 n && N.leb n 102 then Some (n - 87)%N
  else if N.leb 65 n && N.leb n 70 then Some (n - 55)%N
  else None.

(** The code point written by four hexadecimal digits. *)
Definition hex4 (a b c d : ascii) : option N :=
  match hex_value a, hex_value b, hex_value c, hex_value d with
  | Some x, Some y, Some z, Some w =>
      Some (((x * 16 + y) * 16 + z) * 16 + w)%N
  | _, _, _, _ => None
  end.

(** The body of a string literal, after its opening quote. *)
Fixpoint scan_string (s : string) : option (string * string) :=
  match s with
  | EmptyString => None
  | String c rest =>
      if Ascii.eqb c dquote then Some (EmptyString, rest)
      else if Ascii.eqb c backslash then
        match rest with
        | EmptyString => None
        | String e rest' =>
            let continue (ch : ascii) (tail : string) :=
              match scan_string tail with
              | Some (body, r) => Some (String ch body, r)
              | None => None
              end in
            if Ascii.eqb e dquote then continue dquote rest'
            else if Ascii.eqb e backslash then continue backslash rest'
            else if Ascii.eqb e "/" then continue "/"%char rest'
            else if Ascii.eqb e "b" then continue "008"%char rest'
            else if Ascii.eqb e "f" then continue "012"%char rest'
            else if Ascii.eqb e "n" then continue "010"%char rest'
            else if Ascii.eqb e "r" then continue "013"%char rest'
            else if Ascii.eqb e "t" then continue "009"%char rest'
            else if Ascii.eqb e "u" then
              match rest' with
              | String h1 (String h2 (String h3 (String h4 tail))) =>
                  match hex4 h1 h2 h3 h4 with
                  | Some n =>
                      if N.ltb n 256 then continue (ascii_of_N n) tail
                      else None
                  | None => None
                  end
              | _ => None
              end
            else None
        end
      else if N.ltb (N_of_ascii c) 32 then None
      else
        match scan_string rest with
        | Some (body, r) => Some (String c body, r)
        | None => None
        end
  end.

Definition digit_cons (c : ascii) : option (Decimal.uint -> Decimal.uint) :=
  let n := N_of_ascii c in
  if N.eqb n 48 then Some Decimal.D0
  else if N.eqb n 49 then Some Decimal.D1
  else if N.eqb n 50 then Some Decimal.D2
  else if N.eqb n 51 then Some Decimal.D3
  else if N.eqb n 52 then Some Decimal.D4
  else if N.eqb n 53 then Some Decimal.D5
  else if N.eqb n 54 then Some Decimal.D6
  else if N.eqb n 55 then Some Decimal.D7
  else if N.eqb n 56 then Some Decimal.D8
  else if N.eqb n 57 then Some Decimal.D9
  else None.

(** The longest run of decimal digits at the head of the text. *)
Fixpoint scan_digits (s : string) : Decimal.uint * string :=
  match s with
  | EmptyString => (Decimal.Nil, s)
  | String c rest =>
      match digit_cons c with
      | Some digit => let (d, r) := scan_digits rest in (digit d, r)
      | None => (Decimal.Nil, s)
      end
  end.

(** An integer literal: an optional sign, then a lone zero or a run of
    digits that does not start with zero.  What follows is left in
    place, so a fraction or an exponent stops the enclosing value from
    being read. *)
Definition scan_number (s : string) : option (Z * string) :=
  let (negative, body) :=
    match s with
    | String c rest => if Ascii.eqb c "-" then (true, rest) else (false, s)
    | EmptyString => (false, s)
    end in
  match body with
  | EmptyString => None
  | String c rest =>
      if Ascii.eqb c "0" then Some (0%Z, rest)
      else
        match scan_digits body with
        | (Decimal.Nil, _) => None
        | (d, r) =>
            Some (Z.of_int (if negative then Decimal.Neg d else Decimal.Pos d),
                  r)
        end
  end.

(** The recursive descent of [json.decoder], bounded by [fuel]:
    [parse_value] reads one value, [parse_items] the elements of an
    array after its bracket and [parse_members] the members of an
    object after its brace. *)
Fixpoint parse_value (fuel : nat) (s : string) {struct fuel}
  : option (json * string) :=
  match fuel with
  | O => None
  | S fuel =>
      match s with
      | EmptyString => None
      | String c rest =>
          if Ascii.eqb c dquote then
            match scan_string rest with
            | Some (str, r) => Some (JStr str, r)
            | None => None
            end
          else if Ascii.eqb c "[" then
            match skip_ws rest with
            | EmptyString => None
            | String c1 r1 =>
                if Ascii.eqb c1 "]" then Some (JArr [], r1)
                else
                  match parse_items fuel (String c1 r1) with
                  | Some (items, r) => Some (JArr items, r)
                  | None => None
                  end
            end
          else if Ascii.eqb c "{" then
            match skip_ws rest with
            | EmptyString => None
            | String c1 r1 =>
                if Ascii.eqb c1 "}" then Some (JObj [], r1)
                else
                  match parse_members fuel (String c1 r1) with
                  | Some (members, r) => Some (JObj members, r)
                  | None => None
                  end
            end
          else if Ascii.eqb c "n" then
            match strip_prefix "ull" rest with
            | Some r => Some (JNull, r)
            | None => None
            end
          else if Ascii.eqb c "t" then
            match strip_prefix "rue" rest with
            | Some r => Some (JBool true, r)
            | None => None
            end
          else if Ascii.eqb c "f" then
            match strip_prefix "alse" rest with
            | Some r => Some (JBool false, r)
            | None => None
            end
          else
            match scan_number s with
            | Some (n, r) => Some (JInt n, r)
            | None => None
            end
      end
  end
with parse_items (fuel : nat) (s : string) {struct fuel}
  : option (list json * string) :=
  match fuel with
  | O => None
  | S fuel =>
      match parse_value fuel s with
      | None => None
      | Some (v, r) =>
          match skip_ws r with
          | EmptyString => None
          | String c r1 =>
              if Ascii.eqb c "," then
                match parse_items fuel (skip_ws r1) with
                | Some (items, r2) => Some (v :: items, r2)
                | None => None
                end
              else if Ascii.eqb c "]" then Some ([v], r1)
              else None
          end
      end
  end
with parse_members (fuel : nat) (s : string) {struct fuel}
  : option (list (string * json) * string) :=
  match fuel with
  | O => None
  | S fuel =>
      match s with
      | EmptyString => None
      | String c rest =>
          if Ascii.eqb c dquote then
            match scan_string rest with
            | None => None
            | Some (k, r) =>
                match skip_ws r with
                | EmptyString => None
                | String c1 r1 =>
                    if Ascii.eqb c1 ":" then
                      match parse_value fuel (skip_ws r1) with
                      | None => None
                      | Some (v, r2) =>
                          match skip_ws r2 with
                          | EmptyString => None
                          | String c2 r3 =>
                              if Ascii.eqb c2 "," then
                                match parse_members fuel (skip_ws r3) with
                                | Some (members, r4) =>
                                    Some ((k, v) :: members, r4)
                                | None => None
                                end
                              else if Ascii.eqb c2 "}" then
                                Some ([(k, v)], r3)
                              else None
                          end
                      end
                    else None
                end
            end
          else None
      end
  end.

(** A whole document: one value between optional white space.  The
    length of the text is fuel enough for any text that can be read. *)
Definition read_json (s : string) : option json :=
  match parse_value (S (String.length s)) (skip_ws s) with
  | Some (j, r) =>
      match skip_ws r with
      | EmptyString => Some j
      | String _ _ => None
      end
  | None => None
  end.

(** ** Outcomes of Python code *)

Inductive exn : Type :=
| KeyError
| IndexError
| TypeError
| AttributeError
| ValueError
| AssertionError.

Inductive outcome (A : Type) : Type :=
| Return (a : A)
| Raise (e : exn).
Arguments Return {A} a.
Arguments Raise {A} e.

Definition exn_eqb (a b : exn) : bool :=
  match a, b with
  | KeyError, KeyError | IndexError, IndexError | TypeError, TypeError
  | AttributeError, AttributeError | ValueError, ValueError
  | AssertionError, AssertionError => true
  | _, _ => false
  end.

Definition obind {A B} (m : outcome A) (k : A -> outcome B) : outcome B :=
  match m with
  | Return a => k a
  | Raise e => Raise e
  end.

Notation "x <- m ;; k" := (obind m (fun x => k))
  (at level 61, m at next level, right associativity).

(** Code that also writes to the module logger: the records written so
    far are threaded through, and survive an exception. *)
Definition logged (A : Type) : Type := list string -> outcome A * list string.

Definition pure {A} (m : outcome A) : logged A := fun log => (m, log).

(** [_LOGGER.exception(msg, ...)] *)
Definition log_exception (msg : string) : logged unit :=
  fun log => (Return tt, log ++ [msg]).

Definition lbind {A B} (m : logged A) (k : A -> logged B) : logged B :=
  fun log =>
    match m log with
    | (Return a, log') => k a log'
    | (Raise e, log') => (Raise e, log')
    end.

(** [try: body / except e: handler] *)
Definition try_except {A} (body : logged A) (e : exn) (handler : logged A)
  : logged A :=
  fun log =>
    match body log with
    | (Return a, log') => (Return a, log')
    | (Raise e', log') =>
        if exn_eqb e' e then handler log' else (Raise e', log')
    end.

(** ** The domain objects of [homeassistant.core] *)

(** [str.split(sep, 1)] *)
Fixpoint split_once (sep : ascii) (s : string) : list string :=
  match s with
  | EmptyString => [EmptyString]
  | String c rest =>
      if Ascii.eqb c sep then [EmptyString; rest]
      else
        match split_once sep rest with
        | [] => []
        | first :: others => String c first :: others
        end
  end.

(** Modelled from the spec: [split_entity_id] of [homeassistant.core]
    is not part of this repository's sources; the spec describes the
    domain as the prefix of the identifier before the first separator,
    here the full stop. *)
Definition split_entity_id (entity_id : string) : list string :=
  split_once "." entity_id.

(** Modelled from the spec: the origin enumeration of
    [homeassistant.core], with the local and the remote origin the spec
    mentions and their string tags. *)
Inductive EventOrigin : Type :=
| local
| remote.

Definition EventOrigin_str (o : EventOrigin) : string :=
  match o with
  | local => "LOCAL"
  | remote => "REMOTE"
  end.

(** [EventOrigin(value)]: looking a member up by its tag; a tag of no
    member is a [ValueError], as for every Python enumeration. *)
Definition EventOrigin_of (value : string) : outcome EventOrigin :=
  if String.eqb value "LOCAL" then Return local
  else if String.eqb value "REMOTE" then Return remote
  else Raise ValueError.

Definition Context_as_dict (c : Context) : dict pyval :=
  let opt (o : option string) :=
    match o with Some s => PStr s | None => PNone end in
  [("id", opt (ctx_id c)); ("user_id", opt (ctx_user_id c))].

Definition datetime_value (o : option datetime) : pyval :=
  match o with
  | Some d => PDatetime d
  | None => PNone
  end.

(** Modelled from the spec: the state object of [homeassistant.core]
    carries [entity_id], [domain], [state], [attributes],
    [last_changed], [last_updated] and [context]; its dict form holds
    the same fields, the attributes as a mapping of their own. *)
Module State.
Record t : Type := mk {
  entity_id : string;
  domain : string;
  state : string;
  attributes : dict pyval;
  last_changed : option datetime;
  last_updated : option datetime;
  context : Context
}.

(** The state object as a value inside event data. *)
Definition to_value (s : t) : pyval :=
  PState (entity_id s) (domain s) (state s) (attributes s)
         (last_changed s) (last_updated s) (context s).

(** [isinstance(v, State)] *)
Definition of_value (v : pyval) : option t :=
  match v with
  | PState e d s a lc lu c => Some (mk e d s a lc lu c)
  | _ => None
  end.

(** [state.as_dict()] *)
Definition as_dict (s : t) : dict pyval :=
  [("entity_id", PStr (entity_id s));
   ("state", PStr (state s));
   ("attributes", PDict (dict_copy (attributes s)));
   ("last_changed", datetime_value (last_changed s));
   ("last_updated", datetime_value (last_updated s));
   ("context", PDict (Context_as_dict (context s)))].

(** [State(entity_id, state, attributes, last_changed, last_updated,
    context, temp_invalid_id_bypass=True)]: the identifier is not
    validated; the attributes have to be a mapping. *)
Definition new (entity_id state : string) (attributes : pyval)
    (last_changed last_updated : option datetime) (context : Context)
  : outcome t :=
  match attributes with
  | PDict d =>
      match split_entity_id entity_id with
      | [] => Raise IndexError
      | domain :: _ =>
          Return (mk entity_id domain state d last_changed last_updated
                     context)
      end
  | _ => Raise TypeError
  end.
End State.

(** Modelled from the spec: the event object of [homeassistant.core]
    carries its type, data, origin, time fired and context. *)
Module Event.
Record t : Type := mk {
  event_type : string;
  data : pyval;
  origin : EventOrigin;
  time_fired : option datetime;
  context : Context
}.
End Event.

(** ** JSON encoding of Python values *)

(** [datetime.isoformat], the text the encoder writes for a timestamp;
    its calendar arithmetic is the standard library's and is taken as
    given. *)
Class datetime_format : Type := { isoformat : datetime -> string }.

Section Encoding.
Context {fmt : datetime_format}.

Definition encode_datetime (o : option datetime) : json :=
  match o with
  | Some d => JStr (isoformat d)
  | None => JNull
  end.

Definition encode_optstr (o : option string) : json :=
  match o with
  | Some s => JStr s
  | None => JNull
  end.

(** What [json.dumps(v, cls=JSONEncoder)] writes for each value: the
    encoder's [default] turns a timestamp into its ISO text and a
    state object into its dict form. *)
Fixpoint encode (v : pyval) : json :=
  match v with
  | PNone => JNull
  | PBool b => JBool b
  | PInt n => JInt n
  | PStr s => JStr s
  | PDatetime d => JStr (isoformat d)
  | PList items => JArr (map encode items)
  | PDict items => JObj (map (fun kv => (fst kv, encode (snd kv))) items)
  | PState entity_id _ state attributes last_changed last_updated context =>
      JObj [("entity_id", JStr entity_id);
            ("state", JStr state);
            ("attributes",
             JObj (map (fun kv => (fst kv, encode (snd kv))) attributes));
            ("last_changed", encode_datetime last_changed);
            ("last_updated", encode_datetime last_updated);
            ("context",
             JObj [("id", encode_optstr (ctx_id context));
                   ("user_id", encode_optstr (ctx_user_id context))])]
  end.

Definition json_dumps (v : pyval) : string := write_json (encode v).
End Encoding.

(** The Python value [json.loads] builds from a document: an object
    becomes a [dict], so a repeated key keeps its last value. *)
Fixpoint decode (j : json) : pyval :=
  match j with
  | JNull => PNone
  | JBool b => PBool b
  | JInt n => PInt n
  | JStr s => PStr s
  | JArr items => PList (map decode items)
  | JObj members =>
      PDict (dict_of_items (map (fun kv => (fst kv, decode (snd kv))) members))
  end.

(** [json.loads(s)]: a [JSONDecodeError] is a [ValueError]. *)
Definition json_loads (s : string) : outcome pyval :=
  match read_json s with
  | Some j => Return (decode j)
  | None => Raise ValueError
  end.

(** ** Filtering the data of a state change event *)

(** [d[k]] *)
Definition subscript {V} (d : dict V) (k : string) : outcome V :=
  match dict_get k d with
  | Some v => Return v
  | None => Raise KeyError
  end.

(** [d.get(k)] *)
Definition dict_get_default (d : dict pyval) (k : string) : pyval :=
  match dict_get k d with
  | Some v => v
  | None => PNone
  end.

(** A value used as a mapping: anything else has neither [items] nor
    item assignment. *)
Definition mapping_of (v : pyval) (e : exn) : outcome (dict pyval) :=
  match v with
  | PDict d => Return d
  | _ => Raise e
  end.

(** The body of the loop of [_filter_state_change_event_data] for one
    key.  The dict form stored under [key] is the object whose
    [attributes] entry is then replaced. *)
Definition filter_state_entry (key : string) (filtered_dict : dict pyval)
  : outcome (dict pyval) :=
  match dict_get key filtered_dict with
  | None => Return filtered_dict
  | Some v =>
      match State.of_value v with
      | None => Return filtered_dict
      | Some st =>
          let filtered_dict :=
            dict_set key (PDict (State.as_dict st)) filtered_dict in
          entry <- subscript filtered_dict key ;;
          entry <- mapping_of entry TypeError ;;
          attributes <- subscript entry "attributes" ;;
          attributes <- mapping_of attributes AttributeError ;;
          let entry :=
            dict_set "attributes" (PDict (_filter_attributes attributes))
                     entry in
          Return (dict_set key (PDict entry) filtered_dict)
      end
  end.

Definition _filter_state_change_event_data (unfiltered_dict : dict pyval)
  : outcome (dict pyval) :=
  let filtered_dict := dict_copy unfiltered_dict in
  fold_left
    (fun acc key => filtered_dict <- acc ;; filter_state_entry key filtered_dict)
    ["old_state"; "new_state"]
    (Return filtered_dict).

(** ** The event record codec *)

Module Events.
Record t : Type := mk {
  event_id : option Z;
  event_type : string;
  event_data : string;
  origin : string;
  time_fired : option datetime;
  created : option datetime;
  context_id : option string;
  context_user_id : option string
}.

(** The payload handed to [json.dumps].  Event data is a mapping; the
    model takes data of another kind to fail where [copy] is called on
    it. *)
Definition payload (event : Event.t) : outcome pyval :=
  if String.eqb (Event.event_type event) EVENT_STATE_CHANGED then
    match Event.data event with
    | PDict d =>
        filtered <- _filter_state_change_event_data d ;;
        Return (PDict filtered)
    | _ => Raise AttributeError
    end
  else Return (Event.data event).

Definition from_event {fmt : datetime_format} (event : Event.t)
  : outcome t :=
  data <- payload event ;;
  Return (mk None
             (Event.event_type event)
             (json_dumps data)
             (EventOrigin_str (Event.origin event))
             (Event.time_fired event)
             None
             (ctx_id (Event.context event))
             (ctx_user_id (Event.context event))).

Definition to_native (self : t) : logged (option Event.t) :=
  let context := mkContext (context_id self) (context_user_id self) in
  try_except
    (pure (data <- json_loads (event_data self) ;;
           origin <- EventOrigin_of (origin self) ;;
           Return (Some (Event.mk (event_type self) data origin
                                  (_process_timestamp (time_fired self))
                                  context))))
    ValueError
    (lbind (log_exception "Error converting to event: %s")
           (fun _ => pure (Return None))).
End Events.

(** ** The state record codec *)

Module States.
Record t : Type := mk {
  state_id : option Z;
  domain : string;
  entity_id : string;
  state : string;
  attributes : string;
  event_id : option Z;
  last_changed : option datetime;
  last_updated : option datetime;
  created : option datetime;
  context_id : option string;
  context_user_id : option string
}.

(** Event data is a mapping, subscripted without a default for the
    identifier and with one for the new state.  The new state is
    [None], absent, or a state object; anything else has no [domain].
    The identifier is a string: [split_entity_id] needs one, and so
    does the column, where the model stops with a [TypeError]. *)
Definition from_event {fmt : datetime_format} (event : Event.t)
  : outcome t :=
  data <- mapping_of (Event.data event) TypeError ;;
  entity_id <- subscript data "entity_id" ;;
  let state := dict_get_default data "new_state" in
  let context_id := ctx_id (Event.context event) in
  let context_user_id := ctx_user_id (Event.context event) in
  match state with
  | PNone =>
      (* State got deleted *)
      match entity_id with
      | PStr entity_id =>
          match split_entity_id entity_id with
          | [] => Raise IndexError
          | domain :: _ =>
              Return (mk None domain entity_id "" "{}" None
                         (Event.time_fired event) (Event.time_fired event)
                         None context_id context_user_id)
          end
      | _ => Raise AttributeError
      end
  | _ =>
      match State.of_value state with
      | None => Raise AttributeError
      | Some state =>
          match entity_id with
          | PStr entity_id =>
              Return (mk None (State.domain state) entity_id
                         (State.state state)
                         (json_dumps
                            (PDict (_filter_attributes
                                      (dict_copy (State.attributes state)))))
                         None
                         (State.last_changed state)
                         (State.last_updated state)
                         None context_id context_user_id)
          | _ => Raise TypeError
          end
      end
  end.

Definition to_native (self : t) : logged (option State.t) :=
  let context := mkContext (context_id self) (context_user_id self) in
  try_except
    (pure (attributes <- json_loads (attributes self) ;;
           state <- State.new (entity_id self) (state self) attributes
                              (_process_timestamp (last_changed self))
                              (_process_timestamp (last_updated self))
                              context ;;
           Return (Some state)))
    ValueError
    (lbind (log_exception "Error converting row to state: %s")
           (fun _ => pure (Return None))).
End States.

(** ** Recording runs *)

(** The storage a session reads: the rows of the [states] table. *)
Record Session : Type := mkSession {
  states : list States.t
}.

(** Comparison of two timestamp columns in a query: a comparison with
    [NULL] selects nothing. *)
Definition sql_ge (a b : option datetime) : bool :=
  match a, b with
  | Some x, Some y => Z.leb (instant y) (instant x)
  | _, _ => false
  end.

Definition sql_lt (a b : option datetime) : bool :=
  match a, b with
  | Some x, Some y => Z.ltb (instant x) (instant y)
  | _, _ => false
  end.

(** [distinct(column)] *)
Definition distinct (l : list string) : list string := nodup string_dec l.

Module RecorderRuns.
Record t : Type := mk {
  run_id : option Z;
  start : option datetime;
  end_ : option datetime;
  closed_incorrect : option bool;
  created : option datetime
}.

(** [object_session] is what [Session.object_session(self)] answers:
    the session of a persisted run, [None] for a transient one. *)
Definition entity_ids (object_session : option Session) (self : t)
    (point_in_time : option datetime) : outcome (list string) :=
  match object_session with
  | None => Raise AssertionError
  | Some session =>
      let query :=
        filter (fun row => sql_ge (States.last_updated row) (start self))
               (states session) in
      let query :=
        match point_in_time with
        | Some _ =>
            filter (fun row => sql_lt (States.last_updated row) point_in_time)
                   query
        | None =>
            match end_ self with
            | Some _ =>
                filter (fun row => sql_lt (States.last_updated row)
                                          (end_ self))
                       query
            | None => query
            end
        end in
      Return (distinct (map States.entity_id query))
  end.

Definition to_native (self : t) : t := self.
End RecorderRuns.

(** ** Objects and references

    Mappings, lists and state objects are objects on a heap, and event
    data holds references to them.  This is the level at which copying
    and mutation are visible: [copy] and [dict(...)] allocate, item
    assignment writes through a reference. *)

Module Heap.
Definition loc : Type := nat.

Inductive value : Type :=
| VNone
| VBool (b : bool)
| VInt (n : Z)
| VStr (s : string)
| VDatetime (d : datetime)
| VRef (l : loc).

Inductive object : Type :=
| ODict (items : dict value)
| OList (items : list value)
| OState (entity_id domain state : string)
         (attributes : loc)
         (last_changed last_updated : option datetime)
         (context : Context).

Definition heap : Type := list object.

Definition read (h : heap) (l : loc) : option object := nth_error h l.

Fixpoint write (h : heap) (l : loc) (o : object) : heap :=
  match h, l with
  | [], _ => []
  | _ :: rest, O => o :: rest
  | x :: rest, S l' => x :: write rest l' o
  end.

Definition alloc (h : heap) (o : object) : loc * heap :=
  (length h, h ++ [o]).

(** Code that reads and writes the heap. *)
Definition code (A : Type) : Type := heap -> outcome (A * heap).

Definition ret {A} (a : A) : code A := fun h => Return (a, h).

Definition raise {A} (e : exn) : code A := fun _ => Raise e.

Definition bind {A B} (m : code A) (k : A -> code B) : code B :=
  fun h =>
    match m h with
    | Return (a, h') => k a h'
    | Raise e => Raise e
    end.

Notation "x <~ m ;; k" := (bind m (fun x => k))
  (at level 61, m at next level, right associativity).

Definition new (o : object) : code loc :=
  fun h => Return (alloc h o).

(** The mapping behind a value; [e] is raised when there is none. *)
Definition get_dict (v : value) (e : exn) : code (dict value) :=
  fun h =>
    match v with
    | VRef l =>
        match read h l with
        | Some (ODict d) => Return (d, h)
        | _ => Raise e
        end
    | _ => Raise e
    end.

(** [target[k] = v] on the mapping behind [target]. *)
Definition set_item (target : value) (k : string) (v : value) : code unit :=
  fun h =>
    match target with
    | VRef l =>
        match read h l with
        | Some (ODict d) => Return (tt, write h l (ODict (dict_set k v d)))
        | _ => Raise TypeError
        end
    | _ => Raise TypeError
    end.

(** [target[k]] *)
Definition get_item (target : value) (k : string) : code value :=
  d <~ get_dict target TypeError ;;
  match dict_get k d with
  | Some v => ret v
  | None => raise KeyError
  end.

Definition optstr_value (o : option string) : value :=
  match o with Some s => VStr s | None => VNone end.

Definition datetime_value (o : option datetime) : value :=
  match o with Some d => VDatetime d | None => VNone end.

(** [isinstance(v, State)] *)
Definition is_State (v : value) : code bool :=
  fun h =>
    match v with
    | VRef l =>
        match read h l with
        | Some (OState _ _ _ _ _ _ _) => Return (true, h)
        | _ => Return (false, h)
        end
    | _ => Return (false, h)
    end.

(** [state.as_dict()]: a new mapping, holding a new copy of the
    attributes and the dict form of the context. *)
Definition as_dict (v : value) : code value :=
  fun h =>
    match v with
    | VRef l =>
        match read h l with
        | Some (OState entity_id _ state attributes last_changed
                       last_updated context) =>
            (attrs <~ get_dict (VRef attributes) TypeError ;;
             attrs_copy <~ new (ODict (dict_copy attrs)) ;;
             ctx <~ new (ODict [("id", optstr_value (ctx_id context));
                                ("user_id",
                                 optstr_value (ctx_user_id context))]) ;;
             d <~ new (ODict [("entity_id", VStr entity_id);
                              ("state", VStr state);
                              ("attributes", VRef attrs_copy);
                              ("last_changed", datetime_value last_changed);
                              ("last_updated", datetime_value last_updated);
                              ("context", VRef ctx)]) ;;
             ret (VRef d)) h
        | _ => Raise AttributeError
        end
    | _ => Raise AttributeError
    end.

(** [_filter_attributes]: the comprehension reads the argument, and
    [dict(...)] is a new object. *)
Definition _filter_attributes (unfiltered_dict : value) : code value :=
  items <~ get_dict unfiltered_dict AttributeError ;;
  l <~ new (ODict (_filter_attributes items)) ;;
  ret (VRef l).

(** One turn of the loop of [_filter_state_change_event_data]. *)
Definition filter_state_entry (filtered_dict : value) (key : string)
  : code unit :=
  d <~ get_dict filtered_dict TypeError ;;
  match dict_get key d with
  | None => ret tt
  | Some v =>
      is_state <~ is_State v ;;
      if is_state : bool then
        dict_form <~ as_dict v ;;
        _ <~ set_item filtered_dict key dict_form ;;
        entry <~ get_item filtered_dict key ;;
        attributes <~ get_item entry "attributes" ;;
        filtered <~ _filter_attributes attributes ;;
        entry <~ get_item filtered_dict key ;;
        set_item entry "attributes" filtered
      else ret tt
  end.

Definition _filter_state_change_event_data (unfiltered_dict : value)
  : code value :=
  d <~ get_dict unfiltered_dict AttributeError ;;
  l <~ new (ODict (dict_copy d)) ;;
  let filtered_dict := VRef l in
  _ <~ filter_state_entry filtered_dict "old_state" ;;
  _ <~ filter_state_entry filtered_dict "new_state" ;;
  ret filtered_dict.

End Heap.

(** ** Notions used by the properties *)

(** The number of nodes of a document, a bound on the depth the reader
    descends to. *)
Fixpoint jsize (j : json) : nat :=
  match j with
  | JArr items => S (fold_right (fun x n => S (jsize x + n)) 0 items)
  | JObj members =>
      S (fold_right (fun kv n => S (jsize (snd kv) + n)) 0 members)
  | _ => 1
  end.

Definition items_size (l : list json) : nat :=
  fold_right (fun x n => S (jsize x + n)) 0 l.

Definition members_size (l : list (string * json)) : nat :=
  fold_right (fun kv n => S (jsize (snd kv) + n)) 0 l.

(** The text does not go on with a digit. *)
Definition no_digit_head (s : string) : Prop :=
  match s with
  | EmptyString => True
  | String c _ => digit_cons c = None
  end.

(** What [write_json] writes after the first element of an array, and
    after the first member of an object. *)
Fixpoint write_items_tail (l : list json) : string :=
  match l with
  | [] => "]"
  | x :: l' => (", " ++ write_json x ++ write_items_tail l')%string
  end.

Fixpoint write_members_tail (l : list (string * json)) : string :=
  match l with
  | [] => "}"
  | (k, v) :: l' =>
      (", " ++ write_string k ++ ": " ++ write_json v ++
       write_members_tail l')%string
  end.

(** The characters a written value can start with, and those a written
    number can start with. *)
Definition number_head (c : ascii) : bool :=
  Ascii.eqb c "-" ||
  match digit_cons c with Some _ => true | None => false end.

Definition value_head (c : ascii) : bool :=
  Ascii.eqb c dquote || Ascii.eqb c "[" || Ascii.eqb c "{" ||
  Ascii.eqb c "n" || Ascii.eqb c "t" || Ascii.eqb c "f" ||
  number_head c.

(** The reader gives back a written document, whatever follows it. *)
Definition parses (j : json) : Prop :=
  forall fuel rest, jsize j <= fuel -> no_digit_head rest ->
    parse_value fuel (write_json j ++ rest)%string = Some (j, rest).

Fixpoint unique (l : list string) : bool :=
  match l with
  | [] => true
  | k :: rest => negb (in_keys k rest) && unique rest
  end.

(** The values JSON has a form of its own for: [None], booleans,
    integers, strings, and lists and mappings of such values. *)
Fixpoint json_native (v : pyval) : bool :=
  match v with
  | PNone | PBool _ | PInt _ | PStr _ => true
  | PDatetime _ => false
  | PList items => forallb json_native items
  | PDict items =>
      unique (keys items) && forallb (fun kv => json_native (snd kv)) items
  | PState _ _ _ _ _ _ _ => false
  end.

(** Modelled from the spec: [stateChangedEvent(S)], the state changed
    event that carries [S] as its new state; the event bus that builds
    it is not part of this repository's sources.  Its data holds the
    identifier of the entity, the previous state if there was one, and
    the new state. *)
Definition stateChangedEvent (old_state : option State.t)
    (new_state : State.t) (origin : EventOrigin)
    (time_fired : option datetime) (context : Context) : Event.t :=
  Event.mk EVENT_STATE_CHANGED
    (PDict [("entity_id", PStr (State.entity_id new_state));
            ("old_state",
             match old_state with
             | Some s => State.to_value s
             | None => PNone
             end);
            ("new_state", State.to_value new_state)])
    origin time_fired context.

(** A timestamp that is aware and carries [UTC]. *)
Definition utc_aware (o : option datetime) : Prop :=
  exists c, o = Some (mkDatetime c (Some UTC)).

(** Order of two timestamp columns, as instants; nothing compares with
    a missing one. *)
Definition ts_le (a b : option datetime) : Prop :=
  match a, b with
  | Some x, Some y => (instant x <= instant y)%Z
  | _, _ => False
  end.

Definition ts_lt (a b : option datetime) : Prop :=
  match a, b with
  | Some x, Some y => (instant x < instant y)%Z
  | _, _ => False
  end.

(** The window of a run, in the words of the specification: from its
    start, up to the point in time when one is given, else up to its
    end when it has one, else without an upper bound. *)
Definition in_window (run : RecorderRuns.t) (point_in_time : option datetime)
    (row : States.t) : Prop :=
  ts_le (RecorderRuns.start run) (States.last_updated row) /\
  match point_in_time, RecorderRuns.end_ run with
  | Some p, _ => ts_lt (States.last_updated row) (Some p)
  | None, Some e => ts_lt (States.last_updated row) (Some e)
  | None, None => True
  end.

(** The prefix of an identifier before its first full stop; the whole
    identifier when it has none. *)
Definition is_domain_of (domain entity_id : string) : Prop :=
  (exists rest, entity_id = (domain ++ "." ++ rest)%string /\
                forall a b, domain <> (a ++ "." ++ b)%string) \/
  (domain = entity_id /\ forall a b, entity_id <> (a ++ "." ++ b)%string).

(** A stand-in for the standard library's formatter, to run the model
    on examples: it writes the clock reading as a number. *)
Definition clock_text : datetime_format :=
  {| isoformat := fun d => write_int (clock d) |}.

(** All objects of [h] are kept, with their contents, in [h']. *)
Definition preserved (h h' : Heap.heap) : Prop :=
  length h <= length h' /\
  forall l, l < length h -> Heap.read h' l = Heap.read h l.

(** A state object behind [v], if there is one, has a mapping as its
    attributes. *)
Definition state_ok (h : Heap.heap) (v : Heap.value) : Prop :=
  forall l e d s a lc lu c,
    v = Heap.VRef l ->
    Heap.read h l = Some (Heap.OState e d s a lc lu c) ->
    exists attrs, Heap.read h a = Some (Heap.ODict attrs).


(** [h'] has the objects of [h], unchanged but for the one at [fl]. *)
Definition writes_only (fl : Heap.loc) (h h' : Heap.heap) : Prop :=
  length h <= length h' /\
  forall l, l < length h -> l <> fl -> Heap.read h' l = Heap.read h l.

(** Two lists related element by element. *)
Fixpoint all2 {A B} (R : A -> B -> Prop) (l : list A) (l' : list B)
  {struct l'} : Prop :=
  match l, l' with
  | [], [] => True
  | x :: rest, y :: rest' => R x y /\ all2 R rest rest'
  | _, _ => False
  end.

(** Entries with the same keys and related values. *)
Definition entry_rel {A B} (R : A -> B -> Prop)
    (kv : string * A) (kp : string * B) : Prop :=
  fst kv = fst kp /\ R (snd kv) (snd kp).

(** [represents ok h v p]: on the heap [h], going only through objects
    allowed by [ok], the value [v] is the value [p] of the codecs. *)
Fixpoint represents (ok : Heap.loc -> Prop) (h : Heap.heap)
    (v : Heap.value) (p : pyval) {struct p} : Prop :=
  match p with
  | PNone => v = Heap.VNone
  | PBool b => v = Heap.VBool b
  | PInt n => v = Heap.VInt n
  | PStr s => v = Heap.VStr s
  | PDatetime d => v = Heap.VDatetime d
  | PList ps =>
      exists l items,
        v = Heap.VRef l /\ ok l /\
        Heap.read h l = Some (Heap.OList items) /\
        all2 (fun x q => represents ok h x q) items ps
  | PDict ps =>
      exists l items,
        v = Heap.VRef l /\ ok l /\
        Heap.read h l = Some (Heap.ODict items) /\
        all2 (fun kv kp => fst kv = fst kp /\
                           represents ok h (snd kv) (snd kp)) items ps
  | PState e d s ps lc lu c =>
      exists l a attrs,
        v = Heap.VRef l /\ ok l /\ ok a /\
        Heap.read h l = Some (Heap.OState e d s a lc lu c) /\
        Heap.read h a = Some (Heap.ODict attrs) /\
        all2 (fun kv kp => fst kv = fst kp /\
                           represents ok h (snd kv) (snd kp)) attrs ps
  end.

(* ================================================================= *)
(** * Properties *)

(** ** Reading back written JSON *)

Lemma json_ind' (P : json -> Prop) :
  P JNull -> (forall b, P (JBool b)) -> (forall n, P (JInt n)) ->
  (forall s, P (JStr s)) ->
  (forall items, Forall P items -> P (JArr items)) ->
  (forall members, Forall (fun kv => P (snd kv)) members -> P (JObj members)) ->
  forall j, P j.
Proof.
  intros Hnull Hbool Hint Hstr Harr Hobj.
  fix IH 1. intros [ | b | n | s | items | members ].
  - exact Hnull.
  - apply Hbool.
  - apply Hint.
  - apply Hstr.
  - apply Harr. induction items as [ | x items IHitems ].
    + constructor.
    + constructor; [ apply IH | exact IHitems ].
  - apply Hobj. induction members as [ | [k v] members IHm ].
    + constructor.
    + constructor; [ apply IH | exact IHm ].
Qed.

Lemma sapp_assoc (a b c : string) : ((a ++ b) ++ c = a ++ (b ++ c))%string.
Proof. induction a as [ | x a IH ]; simpl; [ reflexivity | now rewrite IH ]. Qed.

Lemma sapp_length (a b : string) :
  String.length (a ++ b)%string = String.length a + String.length b.
Proof. induction a as [ | x a IH ]; simpl; [ reflexivity | now rewrite IH ]. Qed.

Lemma scan_escape_char c tail body r :
  scan_string tail = Some (body, r) ->
  scan_string (escape_char c ++ tail)%string = Some (String c body, r).
Proof.
  intros H.
  destruct c as [[] [] [] [] [] [] [] []]; cbn; rewrite H; reflexivity.
Qed.

Lemma scan_write_string s rest :
  scan_string (escape_string s ++ String dquote rest)%string = Some (s, rest).
Proof.
  induction s as [ | c s IH ]; simpl.
  - reflexivity.
  - rewrite sapp_assoc. now apply scan_escape_char.
Qed.

Lemma scan_digits_write d rest :
  no_digit_head rest ->
  scan_digits (NilEmpty.string_of_uint d ++ rest)%string = (d, rest).
Proof.
  intros Hrest.
  induction d as [ | d IH | d IH | d IH | d IH | d IH | d IH | d IH | d IH | d IH | d IH ];
    simpl; try (rewrite IH; reflexivity).
  destruct rest as [ | c rest ]; simpl in *; [ reflexivity | now rewrite Hrest ].
Qed.

Lemma nzhead_not_D0 d d' : Decimal.nzhead d <> Decimal.D0 d'.
Proof.
  induction d as [ | d IH | d IH | d IH | d IH | d IH | d IH | d IH | d IH | d IH | d IH ];
    simpl; try discriminate.
  exact IH.
Qed.

Lemma unorm_D0 d d' : Decimal.unorm d = Decimal.D0 d' -> d' = Decimal.Nil.
Proof.
  unfold Decimal.unorm. intros H.
  pose proof (nzhead_not_D0 d) as Hhead.
  destruct (Decimal.nzhead d); try discriminate.
  - congruence.
  - exfalso. eapply Hhead. reflexivity.
Qed.

Lemma to_uint_head p d : Pos.to_uint p <> Decimal.D0 d.
Proof.
  intros H.
  assert (Hn : Decimal.unorm (Pos.to_uint p) = Pos.to_uint p).
  { rewrite <- (DecimalPos.Unsigned.to_of (Pos.to_uint p)).
    rewrite DecimalPos.Unsigned.of_to. reflexivity. }
  rewrite H in Hn. simpl in Hn.
  apply unorm_D0 in Hn. subst d.
  exact (DecimalPos.Unsigned.to_uint_nonzero p H).
Qed.

Lemma scan_number_digits (negative : bool) d rest :
  d <> Decimal.Nil -> (forall d', d <> Decimal.D0 d') ->
  no_digit_head rest ->
  scan_number ((if negative then "-" else "") ++
               NilEmpty.string_of_uint d ++ rest)%string =
  Some (Z.of_int (if negative then Decimal.Neg d else Decimal.Pos d), rest).
Proof.
  intros Hnil Hhead Hrest.
  pose proof (scan_digits_write d rest Hrest) as Hscan.
  destruct d as [ | d | d | d | d | d | d | d | d | d | d ];
    try congruence; try (exfalso; eapply Hhead; reflexivity);
    destruct negative; unfold scan_number;
    cbn -[scan_digits Z.of_int] in *; rewrite Hscan; reflexivity.
Qed.

Lemma scan_number_write n rest :
  no_digit_head rest ->
  scan_number (write_int n ++ rest)%string = Some (n, rest).
Proof.
  intros Hrest. unfold write_int.
  destruct n as [ | p | p ].
  - reflexivity.
  - rewrite <- (DecimalZ.of_to (Zpos p)) at 2.
    apply (scan_number_digits false); auto using DecimalPos.Unsigned.to_uint_nonnil.
    intros d'. apply to_uint_head.
  - rewrite <- (DecimalZ.of_to (Zneg p)) at 2.
    apply (scan_number_digits true); auto using DecimalPos.Unsigned.to_uint_nonnil.
    intros d'. apply to_uint_head.
Qed.



Lemma sapp_nil_r (a : string) : (a ++ "")%string = a.
Proof. induction a as [ | x a IH ]; simpl; [ reflexivity | now rewrite IH ]. Qed.

Lemma value_head_spec c :
  value_head c = true ->
  is_ws c = false /\ Ascii.eqb c "]" = false /\ Ascii.eqb c "}" = false.
Proof.
  destruct c as [[] [] [] [] [] [] [] []]; vm_compute; intros H;
    try discriminate; repeat split.
Qed.

Lemma number_head_spec c :
  number_head c = true ->
  Ascii.eqb c dquote = false /\ Ascii.eqb c "[" = false /\
  Ascii.eqb c "{" = false /\ Ascii.eqb c "n" = false /\
  Ascii.eqb c "t" = false /\ Ascii.eqb c "f" = false /\
  value_head c = true.
Proof.
  destruct c as [[] [] [] [] [] [] [] []]; vm_compute; intros H;
    try discriminate; repeat split.
Qed.

Lemma write_int_head n :
  exists c s, write_int n = String c s /\ number_head c = true.
Proof.
  unfold write_int. destruct n as [ | p | p ]; simpl.
  - eexists _, _; split; reflexivity.
  - pose proof (DecimalPos.Unsigned.to_uint_nonnil p) as Hnil.
    destruct (Pos.to_uint p); try congruence; simpl;
      eexists _, _; split; reflexivity.
  - eexists _, _; split; reflexivity.
Qed.

Lemma write_json_head j :
  exists c s, write_json j = String c s /\ value_head c = true.
Proof.
  destruct j as [ | [] | n | s | [ | x l ] | [ | [k v] l ] ]; simpl;
    try (eexists _, _; split; reflexivity).
  destruct (write_int_head n) as (c & s & -> & H).
  exists c, s. split; [ reflexivity | ].
  now apply number_head_spec in H.
Qed.

Lemma skip_ws_value j rest :
  skip_ws (write_json j ++ rest)%string = (write_json j ++ rest)%string.
Proof.
  destruct (write_json_head j) as (c & s & -> & H).
  apply value_head_spec in H as (H & _). simpl. now rewrite H.
Qed.

Lemma no_digit_items_tail l rest : no_digit_head (write_items_tail l ++ rest)%string.
Proof. destruct l; reflexivity. Qed.

Lemma no_digit_members_tail l rest :
  no_digit_head (write_members_tail l ++ rest)%string.
Proof. destruct l as [ | [k v] l ]; reflexivity. Qed.




Lemma parse_items_write l : forall x fuel rest,
  parses x -> Forall parses l ->
  items_size (x :: l) <= fuel ->
  parse_items fuel (write_json x ++ write_items_tail l ++ rest)%string =
  Some (x :: l, rest).
Proof.
  induction l as [ | y l IH ]; intros x fuel rest Hx Hl Hfuel;
    destruct fuel as [ | fuel ]; simpl in Hfuel; try lia;
    cbn [parse_items].
  - rewrite Hx; [ | lia | apply no_digit_items_tail ]. reflexivity.
  - rewrite Hx; [ | lia | apply no_digit_items_tail ].
    inversion Hl as [ | ? ? Hy Hl' ]; subst.
    cbn [write_items_tail]. cbn [append skip_ws is_ws].
    cbn -[parse_items write_json write_items_tail skip_ws].
    rewrite !sapp_assoc.
    change (skip_ws (String " " ?s)) with (skip_ws s).
    rewrite skip_ws_value.
    rewrite IH; auto. simpl. lia.
Qed.

Lemma scan_key k rest :
  scan_string (escape_string k ++ String dquote "" ++ rest)%string =
  Some (k, rest).
Proof. apply scan_write_string. Qed.

Lemma parse_members_write l : forall k v fuel rest,
  parses v -> Forall (fun kv => parses (snd kv)) l ->
  members_size ((k, v) :: l) <= fuel ->
  parse_members fuel
    (write_string k ++ ": " ++ write_json v ++ write_members_tail l ++ rest)%string =
  Some ((k, v) :: l, rest).
Proof.
  induction l as [ | [k' v'] l IH ]; intros k v fuel rest Hv Hl Hfuel;
    destruct fuel as [ | fuel ]; simpl in Hfuel; try lia;
    unfold write_string; cbn [parse_members append];
    change (Ascii.eqb dquote dquote) with true; cbv iota;
    rewrite !sapp_assoc; rewrite scan_key;
    cbn [append skip_ws is_ws];
    cbn -[parse_members parse_value write_json write_members_tail skip_ws];
    change (skip_ws (String " " ?s)) with (skip_ws s);
    rewrite skip_ws_value.
  - rewrite Hv; [ | lia | apply no_digit_members_tail ]. reflexivity.
  - rewrite Hv; [ | lia | apply no_digit_members_tail ].
    inversion Hl as [ | ? ? Hy Hl' ]; subst. simpl in Hy.
    cbn [write_members_tail]. cbn [append skip_ws is_ws].
    cbn -[parse_members write_json write_members_tail skip_ws write_string].
    rewrite !sapp_assoc.
    change (skip_ws (String " " ?s)) with (skip_ws s).
    assert (Hq : forall s, skip_ws (write_string k' ++ s)%string =
                           (write_string k' ++ s)%string) by reflexivity.
    rewrite Hq.
    specialize (IH k' v' fuel rest Hy Hl' ltac:(simpl in *; lia)).
    match goal with
    | |- context [parse_members fuel ?s] =>
        replace s with (write_string k' ++ ": " ++ write_json v' ++
                        write_members_tail l ++ rest)%string
    end.
    + rewrite IH. reflexivity.
    + cbn [append]. rewrite ?sapp_assoc. reflexivity.
Qed.

Lemma parse_write_json j : parses j.
Proof.
  induction j as [ | b | n | s | items IH | members IH ] using json_ind';
    intros fuel rest Hfuel Hrest;
    (destruct fuel as [ | fuel ]; [ simpl in Hfuel; lia | ]).
  - reflexivity.
  - destruct b; reflexivity.
  - cbn [write_json].
    destruct (write_int_head n) as (c & s & Hw & Hc).
    pose proof (scan_number_write n rest Hrest) as Hscan.
    rewrite Hw in *.
    apply number_head_spec in Hc as (H1 & H2 & H3 & H4 & H5 & H6 & _).
    cbn [parse_value append]. rewrite H1, H2, H3, H4, H5, H6.
    cbn [append] in Hscan. rewrite Hscan. reflexivity.
  - cbn [write_json]. unfold write_string. cbn [parse_value append].
    change (Ascii.eqb dquote dquote) with true. cbv iota.
    rewrite sapp_assoc. cbn [append].
    rewrite scan_write_string. reflexivity.
  - destruct items as [ | x l ].
    + reflexivity.
    + inversion IH as [ | ? ? Hx Hl ]; subst.
      change (write_json (JArr (x :: l)))
        with ("[" ++ write_json x ++ write_items_tail l)%string.
      rewrite !sapp_assoc. cbn [parse_value append].
      cbn -[parse_items write_json write_items_tail skip_ws].
      rewrite skip_ws_value.
      destruct (write_json_head x) as (c & s & Hw & Hc).
      pose proof (parse_items_write l x fuel rest Hx Hl) as Hitems.
      rewrite Hw in *.
      apply value_head_spec in Hc as (_ & Hc & _).
      cbn [append] in *. rewrite Hc.
      rewrite Hitems; [ reflexivity | ]. unfold items_size in *. simpl in *. lia.
  - destruct members as [ | [k v] l ].
    + reflexivity.
    + inversion IH as [ | ? ? Hv Hl ]; subst. simpl in Hv.
      change (write_json (JObj ((k, v) :: l)))
        with ("{" ++ write_string k ++ ": " ++ write_json v ++
              write_members_tail l)%string.
      rewrite !sapp_assoc. cbn [parse_value append].
      cbn -[parse_members write_json write_members_tail skip_ws write_string].
      pose proof (parse_members_write l k v fuel rest Hv Hl) as Hm.
      unfold write_string in *. cbn [append skip_ws is_ws] in *.
      cbn -[parse_members write_json write_members_tail skip_ws] in *.
      rewrite !sapp_assoc in *.
      rewrite Hm; [ reflexivity | ]. unfold members_size in *. simpl in *. lia.
Qed.

Lemma items_tail_length l :
  Forall (fun j => jsize j <= String.length (write_json j)) l ->
  S (items_size l) <= String.length (write_items_tail l).
Proof.
  induction 1 as [ | x l Hx Hl IH ]; simpl.
  - lia.
  - rewrite sapp_length. unfold items_size in *. simpl in *. lia.
Qed.

Lemma members_tail_length l :
  Forall (fun kv => jsize (snd kv) <= String.length (write_json (snd kv))) l ->
  S (members_size l) <= String.length (write_members_tail l).
Proof.
  induction 1 as [ | [k v] l Hx Hl IH ]; simpl.
  - lia.
  - rewrite !sapp_length. unfold members_size in *. simpl in *.
    rewrite sapp_length. lia.
Qed.

Lemma jsize_le_length j : jsize j <= String.length (write_json j).
Proof.
  induction j as [ | b | n | s | items IH | members IH ] using json_ind'.
  - simpl. lia.
  - destruct b; simpl; lia.
  - destruct (write_int_head n) as (c & s & Hw & _).
    simpl. rewrite Hw. simpl. lia.
  - simpl. lia.
  - destruct items as [ | x l ]; [ simpl; lia | ].
    inversion IH as [ | ? ? Hx Hl ]; subst.
    apply items_tail_length in Hl.
    change (write_json (JArr (x :: l)))
      with ("[" ++ write_json x ++ write_items_tail l)%string.
    cbn [append String.length]. rewrite sapp_length.
    unfold items_size in *. simpl. lia.
  - destruct members as [ | [k v] l ]; [ simpl; lia | ].
    inversion IH as [ | ? ? Hx Hl ]; subst. simpl in Hx.
    apply members_tail_length in Hl.
    change (write_json (JObj ((k, v) :: l)))
      with ("{" ++ write_string k ++ ": " ++ write_json v ++
            write_members_tail l)%string.
    cbn [append String.length]. rewrite !sapp_length.
    cbn [append String.length]. rewrite sapp_length.
    unfold members_size in *. simpl. lia.
Qed.

Theorem read_write_json j : read_json (write_json j) = Some j.
Proof.
  unfold read_json.
  pose proof (skip_ws_value j "") as Hws. rewrite sapp_nil_r in Hws.
  rewrite Hws.
  pose proof (parse_write_json j (S (String.length (write_json j))) "") as Hp.
  rewrite sapp_nil_r in Hp. rewrite Hp.
  - reflexivity.
  - pose proof (jsize_le_length j). lia.
  - exact I.
Qed.

(** ** The fuel of the reader *)

Lemma skip_ws_length s : String.length (skip_ws s) <= String.length s.
Proof.
  induction s as [ | c s IH ]; simpl; [ lia | ].
  destruct (is_ws c); simpl; lia.
Qed.

Lemma strip_prefix_length p s r :
  strip_prefix p s = Some r ->
  String.length r + String.length p = String.length s.
Proof.
  revert s. induction p as [ | a p IH ]; intros [ | b s ]; simpl;
    try discriminate.
  - intros [= <-]. reflexivity.
  - intros [= <-]. simpl. lia.
  - destruct (Ascii.eqb a b); [ | discriminate ].
    intros H. apply IH in H. lia.
Qed.

Lemma scan_string_length s body r :
  scan_string s = Some (body, r) -> String.length r < String.length s.
Proof.
  assert (H : forall n s, String.length s <= n -> forall body r,
            scan_string s = Some (body, r) ->
            String.length r < String.length s);
    [ | now apply (H (String.length s)) ].
  clear s body r.
  induction n as [ | n IH ]; intros [ | c rest ] Hle body r; simpl in *;
    try discriminate; try lia.
  assert (Hrec : forall ch tail,
            String.length tail <= n ->
            match scan_string tail with
            | Some (b, r0) => Some (String ch b, r0)
            | None => None
            end = Some (body, r) ->
            String.length r < String.length tail).
  { intros ch tail Htail H.
    destruct (scan_string tail) as [ [b r0] | ] eqn:Hs; [ | discriminate ].
    injection H as <- <-. eapply IH; eauto. }
  destruct (Ascii.eqb c dquote).
  { intros [= <- <-]. lia. }
  destruct (Ascii.eqb c backslash).
  - destruct rest as [ | e rest' ]; [ discriminate | ]. simpl in Hle.
    repeat match goal with
           | |- (if ?b then _ else _) = _ -> _ =>
               destruct b;
               [ intros H; apply Hrec in H; simpl; lia | ]
           end.
    destruct (Ascii.eqb e "u"); [ | discriminate ].
    destruct rest' as [ | h1 [ | h2 [ | h3 [ | h4 tail ] ] ] ];
      try discriminate.
    destruct (hex4 h1 h2 h3 h4) as [ n0 | ]; [ | discriminate ].
    destruct (N.ltb n0 256); [ | discriminate ].
    simpl in Hle. intros H. apply Hrec in H; simpl; lia.
  - destruct (N.ltb (N_of_ascii c) 32); [ discriminate | ].
    intros H. apply Hrec in H; lia.
Qed.

Lemma scan_digits_length s d r :
  scan_digits s = (d, r) -> String.length r <= String.length s.
Proof.
  revert d r. induction s as [ | c s IH ]; intros d r; simpl.
  - intros [= <- <-]. simpl. lia.
  - destruct (digit_cons c) as [ digit | ].
    + destruct (scan_digits s) as [d0 r0] eqn:Hs.
      intros [= <- <-]. specialize (IH _ _ eq_refl). lia.
    + intros [= <- <-]. simpl. lia.
Qed.

Lemma scan_digits_nonempty s r d :
  scan_digits s = (d, r) -> d <> Decimal.Nil ->
  String.length r < String.length s.
Proof.
  destruct s as [ | c s ]; simpl.
  - intros [= <- <-]. congruence.
  - destruct (digit_cons c) as [ digit | ].
    + destruct (scan_digits s) as [d0 r0] eqn:Hs.
      intros [= <- <-] _. apply scan_digits_length in Hs. lia.
    + intros [= <- <-]. congruence.
Qed.

Lemma scan_number_length s n r :
  scan_number s = Some (n, r) -> String.length r < String.length s.
Proof.
  unfold scan_number.
  assert (H : forall (negative : bool) body,
            match body with
            | "" => None
            | String c rest =>
                if Ascii.eqb c "0" then Some (0%Z, rest)
                else
                  match scan_digits body with
                  | (Decimal.Nil, _) => None
                  | (d, r0) =>
                      Some (Z.of_int (if negative then Decimal.Neg d
                                      else Decimal.Pos d), r0)
                  end
            end = Some (n, r) -> String.length r < String.length body).
  { intros negative [ | c rest ]; [ discriminate | ].
    destruct (Ascii.eqb c "0").
    - intros [= <- <-]. simpl. lia.
    - destruct (scan_digits (String c rest)) as [d r0] eqn:Hs.
      destruct d; try discriminate; intros [= <- <-];
        (eapply scan_digits_nonempty; [ exact Hs | discriminate ]). }
  destruct s as [ | c rest ].
  - discriminate.
  - destruct (Ascii.eqb c "-").
    + intros Hs. apply (H true rest) in Hs. simpl. lia.
    + intros Hs. apply (H false (String c rest)) in Hs. exact Hs.
Qed.

Ltac fuel_succ fuel' Hf :=
  destruct fuel' as [ | fuel' ]; [ simpl in Hf; lia | ].

(** A text that is read with some fuel is read with any fuel that
    covers the size of the document, and the document is no larger
    than the text it was read from. *)
Lemma parse_fuel fuel :
  (forall s j r, parse_value fuel s = Some (j, r) ->
     jsize j + String.length r <= String.length s /\
     forall fuel', jsize j <= fuel' -> parse_value fuel' s = Some (j, r)) /\
  (forall s l r, parse_items fuel s = Some (l, r) ->
     items_size l + String.length r <= String.length s /\
     forall fuel', items_size l <= fuel' ->
                   parse_items fuel' s = Some (l, r)) /\
  (forall s l r, parse_members fuel s = Some (l, r) ->
     members_size l + String.length r <= String.length s /\
     forall fuel', members_size l <= fuel' ->
                   parse_members fuel' s = Some (l, r)).
Proof.
  induction fuel as [ | fuel (IHv & IHi & IHm) ].
  { repeat split; discriminate. }
  split; [ | split ].
  - intros s j r H. cbn [parse_value] in H.
    destruct s as [ | c rest ]; [ discriminate | ].
    destruct (Ascii.eqb c dquote) eqn:E1.
    { destruct (scan_string rest) as [ [str r0] | ] eqn:Hs; [ | discriminate ].
      injection H as <- <-. pose proof (scan_string_length _ _ _ Hs).
      split; [ simpl; lia | ]. intros fuel' Hf. fuel_succ fuel' Hf.
      cbn [parse_value]. now rewrite E1, Hs. }
    destruct (Ascii.eqb c "[") eqn:E2.
    { destruct (skip_ws rest) as [ | c1 r1 ] eqn:Hws; [ discriminate | ].
      pose proof (skip_ws_length rest) as Hlen. rewrite Hws in Hlen.
      destruct (Ascii.eqb c1 "]") eqn:E.
      - injection H as <- <-. cbn [String.length jsize fold_right] in *. split; [ lia | ].
        intros fuel' Hf. fuel_succ fuel' Hf.
        cbn [parse_value]. now rewrite E1, E2, Hws, E.
      - destruct (parse_items fuel (String c1 r1)) as [ [items r0] | ] eqn:Hi;
          [ | discriminate ].
        injection H as <- <-. destruct (IHi _ _ _ Hi) as (Hsize & Hfuel).
        change (jsize (JArr items)) with (S (items_size items)).
        cbn [String.length jsize fold_right] in *. split; [ lia | ].
        intros fuel' Hf. fuel_succ fuel' Hf.
        cbn [parse_value]. rewrite E1, E2, Hws, E, Hfuel by lia.
        reflexivity. }
    destruct (Ascii.eqb c "{") eqn:E3.
    { destruct (skip_ws rest) as [ | c1 r1 ] eqn:Hws; [ discriminate | ].
      pose proof (skip_ws_length rest) as Hlen. rewrite Hws in Hlen.
      destruct (Ascii.eqb c1 "}") eqn:E.
      - injection H as <- <-. cbn [String.length jsize fold_right] in *. split; [ lia | ].
        intros fuel' Hf. fuel_succ fuel' Hf.
        cbn [parse_value]. now rewrite E1, E2, E3, Hws, E.
      - destruct (parse_members fuel (String c1 r1)) as [ [ms r0] | ] eqn:Hm;
          [ | discriminate ].
        injection H as <- <-. destruct (IHm _ _ _ Hm) as (Hsize & Hfuel).
        change (jsize (JObj ms)) with (S (members_size ms)).
        cbn [String.length jsize fold_right] in *. split; [ lia | ].
        intros fuel' Hf. fuel_succ fuel' Hf.
        cbn [parse_value]. rewrite E1, E2, E3, Hws, E, Hfuel by lia.
        reflexivity. }
    destruct (Ascii.eqb c "n") eqn:E4.
    { destruct (strip_prefix "ull" rest) as [ r0 | ] eqn:Hp; [ | discriminate ].
      injection H as <- <-. pose proof (strip_prefix_length _ _ _ Hp).
      cbn [String.length jsize fold_right] in *. split; [ lia | ].
      intros fuel' Hf. fuel_succ fuel' Hf.
      cbn [parse_value]. now rewrite E1, E2, E3, E4, Hp. }
    destruct (Ascii.eqb c "t") eqn:E5.
    { destruct (strip_prefix "rue" rest) as [ r0 | ] eqn:Hp; [ | discriminate ].
      injection H as <- <-. pose proof (strip_prefix_length _ _ _ Hp).
      cbn [String.length jsize fold_right] in *. split; [ lia | ].
      intros fuel' Hf. fuel_succ fuel' Hf.
      cbn [parse_value]. now rewrite E1, E2, E3, E4, E5, Hp. }
    destruct (Ascii.eqb c "f") eqn:E6.
    { destruct (strip_prefix "alse" rest) as [ r0 | ] eqn:Hp; [ | discriminate ].
      injection H as <- <-. pose proof (strip_prefix_length _ _ _ Hp).
      cbn [String.length jsize fold_right] in *. split; [ lia | ].
      intros fuel' Hf. fuel_succ fuel' Hf.
      cbn [parse_value]. now rewrite E1, E2, E3, E4, E5, E6, Hp. }
    destruct (scan_number (String c rest)) as [ [n r0] | ] eqn:Hn;
      [ | discriminate ].
    injection H as <- <-. pose proof (scan_number_length _ _ _ Hn).
    split; [ cbn [String.length jsize fold_right] in *; lia | ].
    intros fuel' Hf. fuel_succ fuel' Hf.
    cbn [parse_value]. now rewrite E1, E2, E3, E4, E5, E6, Hn.
  - intros s l r H. cbn [parse_items] in H.
    destruct (parse_value fuel s) as [ [v r0] | ] eqn:Hv; [ | discriminate ].
    destruct (IHv _ _ _ Hv) as (Hsize & Hfuel).
    destruct (skip_ws r0) as [ | c r1 ] eqn:Hws; [ discriminate | ].
    pose proof (skip_ws_length r0) as Hlen. rewrite Hws in Hlen.
    simpl in Hlen.
    destruct (Ascii.eqb c ",") eqn:E1.
    { destruct (parse_items fuel (skip_ws r1)) as [ [items r2] | ] eqn:Hi;
        [ | discriminate ].
      injection H as <- <-. destruct (IHi _ _ _ Hi) as (Hsize' & Hfuel').
      pose proof (skip_ws_length r1).
      change (items_size (v :: items)) with (S (jsize v + items_size items)).
      split; [ lia | ].
      intros fuel' Hf. fuel_succ fuel' Hf.
      cbn [parse_items]. rewrite Hfuel by lia. rewrite Hws, E1.
      rewrite Hfuel' by lia. reflexivity. }
    destruct (Ascii.eqb c "]") eqn:E2; [ | discriminate ].
    injection H as <- <-.
    change (items_size [v]) with (S (jsize v + 0)).
    split; [ lia | ].
    intros fuel' Hf. fuel_succ fuel' Hf.
    cbn [parse_items]. rewrite Hfuel by lia. now rewrite Hws, E1, E2.
  - intros s l r H. cbn [parse_members] in H.
    destruct s as [ | c rest ]; [ discriminate | ].
    destruct (Ascii.eqb c dquote) eqn:E0; [ | discriminate ].
    destruct (scan_string rest) as [ [k r0] | ] eqn:Hk; [ | discriminate ].
    pose proof (scan_string_length _ _ _ Hk) as Hklen.
    destruct (skip_ws r0) as [ | c1 r1 ] eqn:Hws0; [ discriminate | ].
    pose proof (skip_ws_length r0) as Hlen0. rewrite Hws0 in Hlen0.
    simpl in Hlen0.
    destruct (Ascii.eqb c1 ":") eqn:E1; [ | discriminate ].
    destruct (parse_value fuel (skip_ws r1)) as [ [v r2] | ] eqn:Hv;
      [ | discriminate ].
    destruct (IHv _ _ _ Hv) as (Hsize & Hfuel).
    pose proof (skip_ws_length r1) as Hlen1.
    destruct (skip_ws r2) as [ | c2 r3 ] eqn:Hws2; [ discriminate | ].
    pose proof (skip_ws_length r2) as Hlen2. rewrite Hws2 in Hlen2.
    simpl in Hlen2.
    destruct (Ascii.eqb c2 ",") eqn:E2.
    { destruct (parse_members fuel (skip_ws r3)) as [ [ms r4] | ] eqn:Hm;
        [ | discriminate ].
      injection H as <- <-. destruct (IHm _ _ _ Hm) as (Hsize' & Hfuel').
      pose proof (skip_ws_length r3).
      change (members_size ((k, v) :: ms))
        with (S (jsize v + members_size ms)).
      simpl String.length. split; [ lia | ].
      intros fuel' Hf. fuel_succ fuel' Hf.
      cbn [parse_members]. rewrite E0, Hk, Hws0, E1.
      rewrite Hfuel by lia. rewrite Hws2, E2.
      rewrite Hfuel' by lia. reflexivity. }
    destruct (Ascii.eqb c2 "}") eqn:E3; [ | discriminate ].
    injection H as <- <-.
    change (members_size [(k, v)]) with (S (jsize v + 0)).
    simpl String.length. split; [ lia | ].
    intros fuel' Hf. fuel_succ fuel' Hf.
    cbn [parse_members]. rewrite E0, Hk, Hws0, E1.
    rewrite Hfuel by lia. now rewrite Hws2, E2, E3.
Qed.

(** The fuel [read_json] takes is enough: a text that can be read with
    any amount of fuel is read by [read_json]. *)
Theorem read_json_fuel (fuel : nat) (s : string) (j : json) (r : string) :
  parse_value fuel (skip_ws s) = Some (j, r) ->
  skip_ws r = EmptyString ->
  read_json s = Some j.
Proof.
  intros Hparse Hrest. unfold read_json.
  destruct (parse_fuel fuel) as (Hv & _ & _).
  destruct (Hv _ _ _ Hparse) as (Hsize & Hfuel).
  pose proof (skip_ws_length s).
  rewrite Hfuel by lia. now rewrite Hrest.
Qed.


(** ** Dictionaries *)

Lemma in_keys_In k l : in_keys k l = true <-> In k l.
Proof.
  unfold in_keys. rewrite existsb_exists. split.
  - intros (x & Hx & Heq). apply String.eqb_eq in Heq. now subst.
  - intros H. exists k. split; [ exact H | apply String.eqb_refl ].
Qed.

Lemma in_keys_false k l : in_keys k l = false <-> ~ In k l.
Proof.
  rewrite <- in_keys_In. destruct (in_keys k l); split; congruence.
Qed.

Lemma unique_NoDup l : unique l = true -> NoDup l.
Proof.
  induction l as [ | k l IH ]; simpl; intros H.
  - constructor.
  - apply andb_true_iff in H as (Hk & Hl).
    apply negb_true_iff, in_keys_false in Hk.
    constructor; auto.
Qed.

Lemma dict_get_None {V} k (d : dict V) :
  dict_get k d = None <-> ~ In k (keys d).
Proof.
  induction d as [ | [k' v] d IH ]; simpl.
  - tauto.
  - destruct (String.eqb_spec k k') as [ -> | Hne ].
    + split; [ discriminate | intros H; exfalso; apply H; now left ].
    + rewrite IH. split; intros H; [ intros [ Heq | Hin ] | ]; auto.
Qed.

Lemma dict_set_new {V} k (v : V) (d : dict V) :
  ~ In k (keys d) -> dict_set k v d = d ++ [(k, v)].
Proof.
  induction d as [ | [k' v'] d IH ]; simpl; intros Hk.
  - reflexivity.
  - destruct (String.eqb_spec k k') as [ -> | Hne ].
    + exfalso. apply Hk. now left.
    + rewrite IH; auto.
Qed.

Lemma keys_dict_set {V} k (v : V) (d : dict V) :
  In k (keys d) -> keys (dict_set k v d) = keys d.
Proof.
  induction d as [ | [k' v'] d IH ]; simpl; intros Hk.
  - contradiction.
  - destruct (String.eqb_spec k k') as [ -> | Hne ]; simpl.
    + reflexivity.
    + f_equal. apply IH. destruct Hk; congruence.
Qed.

Lemma dict_get_set {V} k k' (v : V) (d : dict V) :
  dict_get k (dict_set k' v d) =
  if String.eqb k k' then Some v else dict_get k d.
Proof.
  induction d as [ | [k0 v0] d IH ]; simpl.
  - destruct (String.eqb k k'); reflexivity.
  - destruct (String.eqb_spec k' k0) as [ -> | Hne ]; simpl.
    + destruct (String.eqb k k0); reflexivity.
    + rewrite IH.
      destruct (String.eqb_spec k k0) as [ -> | Hne0 ];
        destruct (String.eqb_spec k0 k') as [ <- | Hne1 ];
        try reflexivity; congruence.
Qed.

Lemma fold_dict_set {V} (l acc : dict V) :
  NoDup (keys (acc ++ l)) ->
  fold_left (fun d kv => dict_set (fst kv) (snd kv) d) l acc = acc ++ l.
Proof.
  revert acc. induction l as [ | [k v] l IH ]; intros acc Hnd; simpl.
  - now rewrite app_nil_r.
  - rewrite dict_set_new.
    + rewrite IH; rewrite <- app_assoc; [ reflexivity | exact Hnd ].
    + unfold keys in Hnd. rewrite map_app in Hnd. simpl in Hnd.
      apply NoDup_remove_2 in Hnd. intros Hin. apply Hnd.
      apply in_or_app. now left.
Qed.

Lemma dict_of_items_ok {V} (d : dict V) : dict_ok d -> dict_of_items d = d.
Proof. intros H. unfold dict_of_items. now rewrite fold_dict_set. Qed.

Lemma dict_copy_ok {V} (d : dict V) : dict_ok d -> dict_copy d = d.
Proof. apply dict_of_items_ok. Qed.

Lemma keys_filter_incl {V} (p : string * V -> bool) (d : dict V) k :
  In k (keys (filter p d)) -> In k (keys d).
Proof.
  unfold keys. rewrite !in_map_iff. intros (x & Hx & Hin).
  apply filter_In in Hin as (Hin & _). eauto.
Qed.

Lemma dict_ok_filter {V} (p : string * V -> bool) (d : dict V) :
  dict_ok d -> dict_ok (filter p d).
Proof.
  unfold dict_ok. induction d as [ | [k v] d IH ]; simpl; intros Hnd.
  - constructor.
  - inversion Hnd as [ | ? ? Hk Hd ]; subst.
    destruct (p (k, v)); simpl; auto.
    constructor; auto. intros Hin. apply Hk.
    now apply keys_filter_incl in Hin.
Qed.

Lemma dict_get_filter {V} (p : string -> bool) (d : dict V) k :
  dict_get k (filter (fun kv => p (fst kv)) d) =
  if p k then dict_get k d else None.
Proof.
  induction d as [ | [k' v] d IH ]; simpl.
  - destruct (p k); reflexivity.
  - destruct (p k') eqn:Hp'; simpl.
    + destruct (String.eqb_spec k k') as [ -> | Hne ].
      * now rewrite Hp'.
      * exact IH.
    + destruct (String.eqb_spec k k') as [ -> | Hne ].
      * rewrite IH, Hp'. reflexivity.
      * exact IH.
Qed.

Lemma filter_filter_same {A} (p : A -> bool) (l : list A) :
  filter p (filter p l) = filter p l.
Proof.
  induction l as [ | x l IH ]; simpl; [ reflexivity | ].
  destruct (p x) eqn:Hp; simpl; rewrite ?Hp, IH; reflexivity.
Qed.

(** On a mapping, the comprehension of [_filter_attributes] followed by
    [dict] is the restriction to the keys that are kept. *)
Lemma filter_attributes_filter {V} (A : dict V) :
  dict_ok A ->
  _filter_attributes A =
  filter (fun kv => negb (in_keys (fst kv) KEYS_TO_FILTER_FROM_DB)) A.
Proof.
  intros H. unfold _filter_attributes, dict_items.
  apply dict_of_items_ok. now apply dict_ok_filter.
Qed.

(** ** The heap *)

Lemma read_alloc_old h o l :
  l < length h -> Heap.read (h ++ [o]) l = Heap.read h l.
Proof. intros H. unfold Heap.read. now apply nth_error_app1. Qed.

Lemma read_alloc_new h o : Heap.read (h ++ [o]) (length h) = Some o.
Proof.
  unfold Heap.read. rewrite nth_error_app2, Nat.sub_diag; auto.
Qed.

Lemma length_write h l o : length (Heap.write h l o) = length h.
Proof.
  revert l. induction h as [ | x h IH ]; intros [ | l ]; simpl; auto.
Qed.

Lemma read_write_other h l l' o :
  l <> l' -> Heap.read (Heap.write h l o) l' = Heap.read h l'.
Proof.
  unfold Heap.read. revert l l'.
  induction h as [ | x h IH ]; intros [ | l ] [ | l' ] Hne; simpl; auto.
  congruence.
Qed.

Lemma read_write_same h l o :
  l < length h -> Heap.read (Heap.write h l o) l = Some o.
Proof.
  unfold Heap.read. revert l.
  induction h as [ | x h IH ]; intros [ | l ] Hl; simpl in *; try lia; auto.
  apply IH. lia.
Qed.

Lemma read_Some_lt h l o : Heap.read h l = Some o -> l < length h.
Proof. unfold Heap.read. intros H. apply nth_error_Some. congruence. Qed.

Lemma preserved_alloc h o : preserved h (h ++ [o]).
Proof.
  split.
  - rewrite length_app. simpl. lia.
  - intros l Hl. now apply read_alloc_old.
Qed.

(** ** The attribute filter *)

(** C6.  The attribute filter returns a new mapping: the restriction of
    its argument [A] to the keys outside the seven-key deny list, in
    the order and with the values of [A]; [A] and every other object
    are left as they were.  The result holds none of the deny-listed
    keys, and filtering it again gives the same mapping. *)
Theorem filter_attributes_restricts :
  forall (h : Heap.heap) (a : Heap.loc) (A : dict Heap.value),
    Heap.read h a = Some (Heap.ODict A) ->
    dict_ok A ->
    let kept := fun kv : string * Heap.value =>
                  negb (in_keys (fst kv) KEYS_TO_FILTER_FROM_DB) in
    let F := filter kept A in
    KEYS_TO_FILTER_FROM_DB =
      ["entity_id"; "area_id"; "entity_picture"; "hidden"; "icon";
       "device_class"; "editable"] /\
    _filter_attributes A = F /\
    (forall k, In k KEYS_TO_FILTER_FROM_DB -> dict_get k F = None) /\
    (forall k, ~ In k KEYS_TO_FILTER_FROM_DB -> dict_get k F = dict_get k A) /\
    _filter_attributes F = F /\
    exists h',
      Heap._filter_attributes (Heap.VRef a) h =
        Return (Heap.VRef (length h), h') /\
      Heap.read h' (length h) = Some (Heap.ODict F) /\
      Heap.read h' a = Some (Heap.ODict A) /\
      preserved h h' /\
      exists h'',
        Heap._filter_attributes (Heap.VRef (length h)) h' =
          Return (Heap.VRef (length h'), h'') /\
        Heap.read h'' (length h') = Some (Heap.ODict F).
Proof.
  intros h a A Hread Hok kept F.
  assert (HF : _filter_attributes A = F) by now apply filter_attributes_filter.
  assert (HokF : dict_ok F) by now apply dict_ok_filter.
  assert (HFF : _filter_attributes F = F).
  { rewrite filter_attributes_filter by exact HokF.
    apply filter_filter_same. }
  split; [ reflexivity | ].
  split; [ exact HF | ].
  split.
  { intros k Hk. unfold F, kept.
    rewrite (dict_get_filter
               (fun k => negb (in_keys k KEYS_TO_FILTER_FROM_DB))).
    apply in_keys_In in Hk. now rewrite Hk. }
  split.
  { intros k Hk. unfold F, kept.
    rewrite (dict_get_filter
               (fun k => negb (in_keys k KEYS_TO_FILTER_FROM_DB))).
    apply in_keys_false in Hk. now rewrite Hk. }
  split; [ exact HFF | ].
  exists (h ++ [Heap.ODict F]).
  unfold Heap._filter_attributes, Heap.bind, Heap.get_dict, Heap.new,
    Heap.alloc, Heap.ret.
  rewrite Hread, HF.
  split; [ reflexivity | ].
  split; [ apply read_alloc_new | ].
  split.
  { rewrite read_alloc_old; [ exact Hread | eapply read_Some_lt; eauto ]. }
  split; [ apply preserved_alloc | ].
  exists ((h ++ [Heap.ODict F]) ++ [Heap.ODict F]).
  rewrite read_alloc_new, HFF.
  split; [ reflexivity | apply read_alloc_new ].
Qed.

Lemma filter_attributes_restricts_witness :
  exists h',
    Heap._filter_attributes (Heap.VRef 0)
      [Heap.ODict [("icon", Heap.VStr "mdi:lamp");
                   ("friendly_name", Heap.VStr "Kitchen");
                   ("hidden", Heap.VBool false);
                   ("brightness", Heap.VInt 120)]] =
      Return (Heap.VRef 1, h') /\
    Heap.read h' 1 =
      Some (Heap.ODict [("friendly_name", Heap.VStr "Kitchen");
                        ("brightness", Heap.VInt 120)]).
Proof.
  edestruct (filter_attributes_restricts
               [Heap.ODict [("icon", Heap.VStr "mdi:lamp");
                            ("friendly_name", Heap.VStr "Kitchen");
                            ("hidden", Heap.VBool false);
                            ("brightness", Heap.VInt 120)]] 0)
    as (_ & _ & _ & _ & _ & h' & Hrun & Hnew & _).
  - reflexivity.
  - apply unique_NoDup. reflexivity.
  - exists h'. split; [ exact Hrun | exact Hnew ].
Defined.

(** ** The timestamp normaliser *)


(** ** The run window query *)

Lemma sql_ge_ts_le a b : sql_ge a b = true <-> ts_le b a.
Proof.
  destruct a as [ x | ], b as [ y | ]; simpl;
    rewrite ?Z.leb_le; intuition discriminate.
Qed.

Lemma sql_lt_ts_lt a b : sql_lt a b = true <-> ts_lt a b.
Proof.
  destruct a as [ x | ], b as [ y | ]; simpl;
    rewrite ?Z.ltb_lt; intuition discriminate.
Qed.

(** C3.  On a persisted run the query answers the distinct entity
    identifiers of the state rows inside the window: updated at or after
    the start of the run and, when a point in time is given, before it,
    whatever the end of the run; without a point in time, before the
    end of the run when it has one; else with no upper bound.  On a run
    without a session the assertion fails. *)
Theorem entity_ids_window :
  (forall run point_in_time,
     RecorderRuns.entity_ids None run point_in_time = Raise AssertionError) /\
  (forall session run point_in_time, exists ids,
     RecorderRuns.entity_ids (Some session) run point_in_time = Return ids /\
     NoDup ids /\
     forall e, In e ids <->
       exists row, In row (states session) /\
                   States.entity_id row = e /\
                   in_window run point_in_time row).
Proof.
  split; [ reflexivity | ].
  intros session run point_in_time. eexists.
  split; [ reflexivity | ].
  split; [ apply NoDup_nodup | ].
  intros e. unfold distinct, in_window. rewrite nodup_In, in_map_iff.
  destruct point_in_time as [ p | ]; [ | destruct (RecorderRuns.end_ run) as [ e' | ] ];
    split.
  - intros (row & Hid & Hin).
    apply filter_In in Hin as (Hin & Hlt).
    apply filter_In in Hin as (Hin & Hge).
    apply sql_ge_ts_le in Hge. apply sql_lt_ts_lt in Hlt. eauto 6.
  - intros (row & Hin & Hid & Hge & Hlt). exists row. split; [ exact Hid | ].
    apply filter_In. split; [ apply filter_In; split | ]; auto.
    + now apply sql_ge_ts_le.
    + now apply sql_lt_ts_lt.
  - intros (row & Hid & Hin).
    apply filter_In in Hin as (Hin & Hlt).
    apply filter_In in Hin as (Hin & Hge).
    apply sql_ge_ts_le in Hge. apply sql_lt_ts_lt in Hlt. eauto 6.
  - intros (row & Hin & Hid & Hge & Hlt). exists row. split; [ exact Hid | ].
    apply filter_In. split; [ apply filter_In; split | ]; auto.
    + now apply sql_ge_ts_le.
    + now apply sql_lt_ts_lt.
  - intros (row & Hid & Hin).
    apply filter_In in Hin as (Hin & Hge).
    apply sql_ge_ts_le in Hge. eauto 6.
  - intros (row & Hin & Hid & Hge & _). exists row. split; [ exact Hid | ].
    apply filter_In. split; auto. now apply sql_ge_ts_le.
Qed.

(** The scenario of the specification, with the clock counted in
    minutes: a run from 10:00 to 11:00 and updates at 09:59, 10:30,
    10:59 and 11:00.  The run holds the entities updated at 10:30 and
    10:59; up to 10:45 it holds the one updated at 10:30, whatever the
    end of the run. *)
Example entity_ids_scenario :
  let at_ (minutes : Z) := Some (mkDatetime minutes (Some UTC)) in
  let row (entity_id : string) (minutes : Z) :=
    States.mk None "sensor" entity_id "on" "{}" None
              (at_ minutes) (at_ minutes) None None None in
  let session :=
    mkSession [row "sensor.a" 599%Z; row "sensor.b" 630%Z; row "sensor.c" 659%Z;
               row "sensor.d" 660%Z; row "sensor.b" 640%Z] in
  let run := RecorderRuns.mk (Some 1%Z) (at_ 600%Z) (at_ 660%Z) None None in
  RecorderRuns.entity_ids (Some session) run None =
    Return ["sensor.c"; "sensor.b"] /\
  RecorderRuns.entity_ids (Some session) run (at_ 645%Z) =
    Return ["sensor.b"] /\
  RecorderRuns.entity_ids (Some session)
    (RecorderRuns.mk (Some 1%Z) (at_ 600%Z) None None None) None =
    Return ["sensor.c"; "sensor.d"; "sensor.b"].
Proof. repeat split. Qed.

(** ** Records that cannot be read back *)






(** ** The state record codec *)

Lemma split_once_spec c s :
  (exists d rest,
     split_once c s = [d; rest] /\ s = (d ++ String c rest)%string /\
     forall a b, d <> (a ++ String c b)%string) \/
  (split_once c s = [s] /\ forall a b, s <> (a ++ String c b)%string).
Proof.
  induction s as [ | x s IH ]; simpl.
  - right. split; [ reflexivity | ]. intros [ | y a ] b; discriminate.
  - destruct (Ascii.eqb_spec x c) as [ -> | Hne ].
    + left. exists EmptyString, s. repeat split.
      intros [ | y a ] b; discriminate.
    + destruct IH as [ (d & rest & -> & -> & Hd) | (-> & Hs) ].
      * left. exists (String x d), rest. repeat split.
        intros [ | y a ] b; simpl; intros [= H1 H2]; [ congruence | ].
        eapply Hd; eauto.
      * right. split; [ reflexivity | ].
        intros [ | y a ] b; simpl; intros [= H1 H2]; [ congruence | ].
        eapply Hs; eauto.
Qed.

Lemma split_entity_id_domain entity_id :
  exists domain others,
    split_entity_id entity_id = domain :: others /\
    is_domain_of domain entity_id.
Proof.
  unfold split_entity_id, is_domain_of.
  destruct (split_once_spec "." entity_id)
    as [ (d & rest & -> & -> & Hd) | (-> & Hs) ].
  - exists d, [rest]. split; [ reflexivity | ]. left. exists rest. auto.
  - exists entity_id, []. split; [ reflexivity | ]. right. auto.
Qed.

(** C5.  When the data of a state changed event has no [new_state], or
    has [None] there, the state record has the empty string as state,
    the prefix of the entity identifier before its separator as domain,
    the text of the empty JSON object as attributes, and the time the
    event was fired as both timestamps. *)
Theorem from_event_deleted_state :
  forall (fmt : datetime_format) (event : Event.t) (data : dict pyval)
         (entity_id : string),
    Event.data event = PDict data ->
    dict_get "entity_id" data = Some (PStr entity_id) ->
    dict_get "new_state" data = None \/
    dict_get "new_state" data = Some PNone ->
    exists r,
      States.from_event event = Return r /\
      States.state r = "" /\
      is_domain_of (States.domain r) entity_id /\
      States.attributes r = "{}" /\
      States.last_changed r = Event.time_fired event /\
      States.last_updated r = Event.time_fired event /\
      States.entity_id r = entity_id.
Proof.
  intros fmt event data entity_id Hdata Hid Hnew.
  destruct (split_entity_id_domain entity_id) as (domain & others & Hsplit & Hdom).
  unfold States.from_event, subscript, dict_get_default.
  rewrite Hdata. simpl. rewrite Hid. simpl.
  destruct Hnew as [ -> | -> ]; rewrite Hsplit;
    eexists; (split; [ reflexivity | ]); simpl; auto 10.
Qed.

Lemma from_event_deleted_state_witness :
  exists r,
    @States.from_event clock_text
      (Event.mk "state_changed"
         (PDict [("entity_id", PStr "light.kitchen"); ("new_state", PNone)])
         local (Some (mkDatetime 1000 (Some UTC))) (mkContext None None)) =
    Return r /\
    States.state r = "" /\
    States.domain r = "light" /\
    States.attributes r = "{}" /\
    States.last_changed r = Some (mkDatetime 1000 (Some UTC)) /\
    States.last_updated r = Some (mkDatetime 1000 (Some UTC)).
Proof.
  destruct (from_event_deleted_state clock_text
              (Event.mk "state_changed"
                 (PDict [("entity_id", PStr "light.kitchen");
                         ("new_state", PNone)])
                 local (Some (mkDatetime 1000 (Some UTC)))
                 (mkContext None None))
              [("entity_id", PStr "light.kitchen"); ("new_state", PNone)]
              "light.kitchen" eq_refl eq_refl (or_intror eq_refl))
    as (r & Hr & Hstate & _ & Hattrs & Hlc & Hlu & _).
  exists r. simpl in Hr. injection Hr as <-. repeat split.
Defined.

(** C10.  The state record codec reads [entity_id] from the event data
    without a default: when the data has no such key a [KeyError] is
    raised and no record is made, and when it has the key no [KeyError]
    is raised.  [new_state] is read with a default: with a string
    identifier, and a new state that is absent, [None] or a state
    object, a record is made. *)
Theorem from_event_requires_entity_id :
  forall (fmt : datetime_format) (event : Event.t) (data : dict pyval),
    Event.data event = PDict data ->
    (dict_get "entity_id" data = None ->
     States.from_event event = Raise KeyError) /\
    (forall v, dict_get "entity_id" data = Some v ->
               States.from_event event <> Raise KeyError) /\
    (forall entity_id,
       dict_get "entity_id" data = Some (PStr entity_id) ->
       dict_get "new_state" data = None \/
       dict_get "new_state" data = Some PNone \/
       (exists st, dict_get "new_state" data = Some (State.to_value st)) ->
       exists r, States.from_event event = Return r /\
                 States.entity_id r = entity_id).
Proof.
  intros fmt event data Hdata.
  unfold States.from_event, subscript, dict_get_default.
  rewrite Hdata. simpl.
  split; [ | split ].
  - intros ->. reflexivity.
  - intros v ->. simpl.
    destruct (dict_get "new_state" data) as [ [ ] | ]; simpl;
      destruct v; simpl; try discriminate;
      match goal with
      | |- context [split_entity_id ?s] =>
          destruct (split_entity_id_domain s) as (d & o & -> & _)
      end; discriminate.
  - intros entity_id -> Hnew. simpl.
    destruct (split_entity_id_domain entity_id) as (d & o & Hsplit & _).
    destruct Hnew as [ -> | [ -> | (st & ->) ] ]; simpl;
      rewrite ?Hsplit; eexists; split; reflexivity.
Qed.

Lemma from_event_requires_entity_id_witness :
  @States.from_event clock_text
    (Event.mk "state_changed" (PDict [("new_state", PNone)])
              local None (mkContext None None)) = Raise KeyError.
Proof.
  apply (from_event_requires_entity_id clock_text
           (Event.mk "state_changed" (PDict [("new_state", PNone)])
                     local None (mkContext None None))
           [("new_state", PNone)] eq_refl).
  reflexivity.
Defined.

(** ** Python values through JSON *)

Lemma pyval_ind' (P : pyval -> Prop) :
  P PNone -> (forall b, P (PBool b)) -> (forall n, P (PInt n)) ->
  (forall s, P (PStr s)) -> (forall d, P (PDatetime d)) ->
  (forall items, Forall P items -> P (PList items)) ->
  (forall items, Forall (fun kv => P (snd kv)) items -> P (PDict items)) ->
  (forall e d s attributes lc lu c,
     Forall (fun kv => P (snd kv)) attributes ->
     P (PState e d s attributes lc lu c)) ->
  forall v, P v.
Proof.
  intros Hnone Hbool Hint Hstr Hdt Hlist Hdict Hstate.
  fix IH 1. intros [ | b | n | s | d | items | items | e d s attrs lc lu c ].
  - exact Hnone.
  - apply Hbool.
  - apply Hint.
  - apply Hstr.
  - apply Hdt.
  - apply Hlist. induction items as [ | x items IHitems ].
    + constructor.
    + constructor; [ apply IH | exact IHitems ].
  - apply Hdict. induction items as [ | [k v] items IHitems ].
    + constructor.
    + constructor; [ apply IH | exact IHitems ].
  - apply Hstate. induction attrs as [ | [k v] attrs IHattrs ].
    + constructor.
    + constructor; [ apply IH | exact IHattrs ].
Qed.

Lemma json_loads_dumps {fmt : datetime_format} (v : pyval) :
  json_loads (json_dumps v) = Return (decode (encode v)).
Proof.
  unfold json_loads, json_dumps. now rewrite read_write_json.
Qed.

Lemma keys_map_snd {A B} (f : A -> B) (d : dict A) :
  keys (map (fun kv => (fst kv, f (snd kv))) d) = keys d.
Proof.
  unfold keys. rewrite map_map. reflexivity.
Qed.

(** A value JSON has a form for is read back as it was written. *)
Lemma decode_encode_native {fmt : datetime_format} (v : pyval) :
  json_native v = true -> decode (encode v) = v.
Proof.
  induction v as [ | b | n | s | d | items IH | items IH
                 | e d s attrs lc lu c IH ] using pyval_ind';
    simpl; intros Hnative; try reflexivity; try discriminate.
  - f_equal. rewrite map_map.
    induction IH as [ | x items Hx Hitems IHitems ]; simpl in *.
    + reflexivity.
    + apply andb_true_iff in Hnative as (H1 & H2).
      rewrite Hx, IHitems; auto.
  - apply andb_true_iff in Hnative as (Hkeys & Hvalues).
    apply unique_NoDup in Hkeys.
    rewrite map_map. simpl.
    assert (Hmap : map (fun kv : string * pyval =>
                          (fst kv, decode (encode (snd kv)))) items = items).
    { clear Hkeys.
      induction IH as [ | [k x] items Hx Hitems IHitems ]; simpl in *.
      - reflexivity.
      - apply andb_true_iff in Hvalues as (H1 & H2).
        rewrite Hx, IHitems; auto. }
    rewrite Hmap. f_equal. now apply dict_of_items_ok.
Qed.

Lemma dict_of_items_keys {V} (l : list (string * V)) k :
  In k (keys (dict_of_items l)) -> In k (keys l).
Proof.
  unfold dict_of_items.
  assert (H : forall acc : dict V,
            In k (keys (fold_left (fun d kv => dict_set (fst kv) (snd kv) d)
                                  l acc)) ->
            In k (keys acc) \/ In k (keys l)).
  { induction l as [ | [k' v] l IH ]; intros acc Hin; simpl in *.
    - now left.
    - apply IH in Hin as [ Hin | Hin ]; [ | now right; right ].
      destruct (in_dec string_dec k' (keys acc)) as [ Hk' | Hk' ].
      + rewrite keys_dict_set in Hin by exact Hk'. now left.
      + rewrite dict_set_new in Hin by exact Hk'.
        unfold keys in Hin. rewrite map_app in Hin.
        apply in_app_or in Hin as [ Hin | [ Hin | [] ] ]; auto. }
  intros Hin. apply H in Hin as [ [] | Hin ]. exact Hin.
Qed.

Lemma split_entity_id_cons entity_id :
  exists domain others, split_entity_id entity_id = domain :: others.
Proof.
  destruct (split_entity_id_domain entity_id) as (d & o & H & _). eauto.
Qed.

(** ** Round trip of a state *)

(** C1, with the condition the code needs.  For a state object [S]
    whose timestamps are aware and in UTC, and whose attributes, once
    filtered, hold only values JSON has a form for, the record made
    from the state changed event that carries [S] is read back as a
    state with the [entity_id], [state], [last_changed] and
    [last_updated] of [S], and with the filtered attributes of [S]. *)
Theorem state_round_trip :
  forall (fmt : datetime_format) (old_state : option State.t) (S : State.t)
         (origin : EventOrigin) (time_fired : option datetime)
         (context : Context) (log : list string),
    utc_aware (State.last_changed S) ->
    utc_aware (State.last_updated S) ->
    dict_ok (State.attributes S) ->
    json_native (PDict (_filter_attributes (State.attributes S))) = true ->
    exists r S',
      States.from_event
        (stateChangedEvent old_state S origin time_fired context) = Return r /\
      States.to_native r log = (Return (Some S'), log) /\
      State.entity_id S' = State.entity_id S /\
      State.state S' = State.state S /\
      State.last_changed S' = State.last_changed S /\
      State.last_updated S' = State.last_updated S /\
      State.attributes S' = _filter_attributes (State.attributes S).
Proof.
  intros fmt old_state S origin time_fired context log
         (c1 & Hlc) (c2 & Hlu) Hok Hnative.
  destruct (split_entity_id_cons (State.entity_id S)) as (d & o & Hsplit).
  eexists. eexists.
  split.
  { destruct S; reflexivity. }
  unfold States.to_native, try_except, pure. simpl.
  rewrite json_loads_dumps.
  rewrite dict_copy_ok by exact Hok.
  rewrite decode_encode_native by exact Hnative.
  simpl. rewrite Hsplit. simpl.
  split; [ reflexivity | ].
  destruct S; simpl in *. subst. repeat split.
Qed.

Lemma state_round_trip_witness :
  exists r S',
    @States.from_event clock_text
      (stateChangedEvent None
         (State.mk "light.kitchen" "light" "on"
            [("friendly_name", PStr "Kitchen"); ("icon", PStr "mdi:lamp");
             ("brightness", PInt 120)]
            (Some (mkDatetime 1000 (Some UTC)))
            (Some (mkDatetime 2000 (Some UTC)))
            (mkContext (Some "c1") None))
         local (Some (mkDatetime 2000 (Some UTC)))
         (mkContext (Some "c1") None)) = Return r /\
    States.to_native r [] = (Return (Some S'), []) /\
    State.attributes S' =
      [("friendly_name", PStr "Kitchen"); ("brightness", PInt 120)].
Proof.
  edestruct (state_round_trip clock_text None
               (State.mk "light.kitchen" "light" "on"
                  [("friendly_name", PStr "Kitchen"); ("icon", PStr "mdi:lamp");
                   ("brightness", PInt 120)]
                  (Some (mkDatetime 1000 (Some UTC)))
                  (Some (mkDatetime 2000 (Some UTC)))
                  (mkContext (Some "c1") None))
               local (Some (mkDatetime 2000 (Some UTC)))
               (mkContext (Some "c1") None) [])
    as (r & S' & Hr & Hnative & _ & _ & _ & _ & Hattrs).
  - eexists. reflexivity.
  - eexists. reflexivity.
  - apply unique_NoDup. reflexivity.
  - reflexivity.
  - exists r, S'. split; [ exact Hr | ]. split; [ exact Hnative | exact Hattrs ].
Defined.

(** C1, as the claim has it, fails for a state with a timestamp among
    its attributes: the encoder writes the timestamp as text, and text
    is what is read back. *)
Lemma state_round_trip_timestamp_attribute :
  let S := State.mk "automation.wake_up" "automation" "on"
             [("last_triggered", PDatetime (mkDatetime 1000 (Some UTC)))]
             (Some (mkDatetime 2000 (Some UTC)))
             (Some (mkDatetime 2000 (Some UTC)))
             (mkContext None None) in
  exists r S',
    @States.from_event clock_text
      (stateChangedEvent None S local (Some (mkDatetime 2000 (Some UTC)))
                         (mkContext None None)) = Return r /\
    States.to_native r [] = (Return (Some S'), []) /\
    State.attributes S' =
      [("last_triggered",
        PStr (@isoformat clock_text (mkDatetime 1000 (Some UTC))))] /\
    _filter_attributes (State.attributes S) =
      [("last_triggered", PDatetime (mkDatetime 1000 (Some UTC)))] /\
    State.attributes S' <> _filter_attributes (State.attributes S).
Proof.
  eexists. eexists.
  split; [ reflexivity | ].
  split; [ vm_compute; reflexivity | ].
  split; [ reflexivity | ].
  split; [ reflexivity | ].
  discriminate.
Qed.

(** ** The data of a state change event *)

Lemma dict_set_set {V} k (v v' : V) (d : dict V) :
  dict_set k v' (dict_set k v d) = dict_set k v' d.
Proof.
  induction d as [ | [k0 v0] d IH ]; simpl.
  - now rewrite String.eqb_refl.
  - destruct (String.eqb k k0) eqn:Hk; simpl; rewrite Hk.
    + reflexivity.
    + now rewrite IH.
Qed.

Lemma keys_dict_set_present {V} k (v v' : V) (d : dict V) :
  dict_get k d = Some v -> keys (dict_set k v' d) = keys d.
Proof.
  intros H. apply keys_dict_set.
  destruct (in_dec string_dec k (keys d)) as [ Hin | Hin ]; [ exact Hin | ].
  apply dict_get_None in Hin. congruence.
Qed.

Lemma dict_get_map {A B} (f : A -> B) (d : dict A) k :
  dict_get k (map (fun kv => (fst kv, f (snd kv))) d) =
  option_map f (dict_get k d).
Proof.
  induction d as [ | [k' v] d IH ]; simpl; [ reflexivity | ].
  destruct (String.eqb k k'); [ reflexivity | exact IH ].
Qed.

Lemma filter_attributes_no_key {V} (A : dict V) k :
  In k KEYS_TO_FILTER_FROM_DB -> ~ In k (keys (_filter_attributes A)).
Proof.
  intros Hk Hin. unfold _filter_attributes, dict_items in Hin.
  apply dict_of_items_keys in Hin.
  unfold keys in Hin. apply in_map_iff in Hin as ([k' v] & <- & Hin).
  apply filter_In in Hin as (_ & Hkept). cbn [fst] in Hkept.
  apply negb_true_iff, in_keys_false in Hkept. contradiction.
Qed.

(** The dict form of a state with its attributes filtered: what the
    loop leaves under a key that held a state object. *)
Lemma filter_state_entry_spec key (filtered_dict : dict pyval) :
  exists result,
    filter_state_entry key filtered_dict = Return result /\
    keys result = keys filtered_dict /\
    (forall k, k <> key -> dict_get k result = dict_get k filtered_dict) /\
    dict_get key result =
      match dict_get key filtered_dict with
      | Some v =>
          match State.of_value v with
          | Some st =>
              Some (PDict
                      (dict_set "attributes"
                         (PDict (_filter_attributes
                                   (dict_copy (State.attributes st))))
                         (State.as_dict st)))
          | None => Some v
          end
      | None => None
      end.
Proof.
  unfold filter_state_entry.
  destruct (dict_get key filtered_dict) as [ v | ] eqn:Hget.
  - destruct (State.of_value v) as [ st | ] eqn:Hst.
    + unfold subscript. rewrite dict_get_set, String.eqb_refl.
      cbn [obind mapping_of].
      change (dict_get "attributes" (State.as_dict st))
        with (Some (PDict (dict_copy (State.attributes st)))).
      cbn [obind mapping_of]. rewrite dict_set_set.
      eexists. split; [ reflexivity | ]. split; [ | split ].
      * eapply keys_dict_set_present; eauto.
      * intros k Hk. rewrite dict_get_set.
        destruct (String.eqb_spec k key); congruence.
      * now rewrite dict_get_set, String.eqb_refl.
    + eexists. split; [ reflexivity | ]. repeat split. exact Hget.
  - eexists. split; [ reflexivity | ]. repeat split. exact Hget.
Qed.

Lemma filter_state_change_spec (data : dict pyval) :
  dict_ok data ->
  exists payload,
    _filter_state_change_event_data data = Return payload /\
    keys payload = keys data /\
    (forall k, k <> "old_state" -> k <> "new_state" ->
               dict_get k payload = dict_get k data) /\
    (forall key, key = "old_state" \/ key = "new_state" ->
       dict_get key payload =
         match dict_get key data with
         | Some v =>
             match State.of_value v with
             | Some st =>
                 Some (PDict
                         (dict_set "attributes"
                            (PDict (_filter_attributes
                                      (dict_copy (State.attributes st))))
                            (State.as_dict st)))
             | None => Some v
             end
         | None => None
         end).
Proof.
  intros Hok. unfold _filter_state_change_event_data.
  rewrite dict_copy_ok by exact Hok. cbn [fold_left obind].
  destruct (filter_state_entry_spec "old_state" data)
    as (d1 & -> & Hkeys1 & Hother1 & Hold).
  cbn [obind].
  destruct (filter_state_entry_spec "new_state" d1)
    as (d2 & -> & Hkeys2 & Hother2 & Hnew).
  exists d2. split; [ reflexivity | ].
  split; [ congruence | ].
  split.
  - intros k H1 H2. rewrite Hother2, Hother1; auto.
  - intros key [ -> | -> ].
    + rewrite Hother2 by discriminate. exact Hold.
    + rewrite Hnew. rewrite Hother1 by discriminate. reflexivity.
Qed.

Lemma decode_encode_dict {fmt : datetime_format} (d : dict pyval) :
  decode (encode (PDict d)) =
  PDict (dict_of_items
           (map (fun kv => (fst kv, decode (encode (snd kv)))) d)).
Proof. simpl. rewrite map_map. reflexivity. Qed.

Lemma parsed_state_form {fmt : datetime_format} (st : State.t) :
  exists entry attributes,
    decode (encode
              (PDict (dict_set "attributes"
                        (PDict (_filter_attributes
                                  (dict_copy (State.attributes st))))
                        (State.as_dict st)))) = PDict entry /\
    dict_get "attributes" entry = Some (PDict attributes) /\
    forall k, In k KEYS_TO_FILTER_FROM_DB -> dict_get k attributes = None.
Proof.
  destruct st as [e d s attrs lc lu c].
  set (F := _filter_attributes (dict_copy attrs)).
  exists (dict_of_items
            (map (fun kv => (fst kv, decode (snd kv)))
               (map (fun kv => (fst kv, encode (snd kv)))
                  (dict_set "attributes" (PDict F)
                     (State.as_dict (State.mk e d s attrs lc lu c)))))).
  exists (dict_of_items
            (map (fun kv => (fst kv, decode (snd kv)))
               (map (fun kv => (fst kv, encode (snd kv))) F))).
  split; [ reflexivity | ].
  split; [ reflexivity | ].
  intros k Hk. apply dict_get_None. intros Hin.
  apply dict_of_items_keys in Hin.
  rewrite !keys_map_snd in Hin.
  revert Hin. now apply filter_attributes_no_key.
Qed.

(** C4.  For a state changed event, the payload the event record codec
    serialises has, under [old_state] and under [new_state], the dict
    form of the state with its attributes filtered when the entry is a
    state object, and the entry itself otherwise (an absent entry stays
    absent); every other entry is the original one.  The text is JSON:
    read back, each embedded state has attributes without any
    deny-listed key, and every other entry is the JSON form of the
    original, which is the original itself when JSON has a form for
    it. *)
Theorem from_event_filters_state_data :
  forall (fmt : datetime_format) (event : Event.t) (data : dict pyval),
    Event.event_type event = EVENT_STATE_CHANGED ->
    Event.data event = PDict data ->
    dict_ok data ->
    exists payload r parsed,
      _filter_state_change_event_data data = Return payload /\
      Events.from_event event = Return r /\
      Events.event_data r = json_dumps (PDict payload) /\
      json_loads (Events.event_data r) = Return (PDict parsed) /\
      keys payload = keys data /\
      keys parsed = keys data /\
      (forall key, key = "old_state" \/ key = "new_state" ->
         match dict_get key data with
         | Some v =>
             match State.of_value v with
             | Some st =>
                 dict_get key payload =
                   Some (PDict
                           (dict_set "attributes"
                              (PDict (_filter_attributes
                                        (dict_copy (State.attributes st))))
                              (State.as_dict st))) /\
                 exists entry attributes,
                   dict_get key parsed = Some (PDict entry) /\
                   dict_get "attributes" entry = Some (PDict attributes) /\
                   forall k, In k KEYS_TO_FILTER_FROM_DB ->
                             dict_get k attributes = None
             | None => dict_get key payload = Some v
             end
         | None => dict_get key payload = None /\ dict_get key parsed = None
         end) /\
      (forall k, k <> "old_state" -> k <> "new_state" ->
         dict_get k payload = dict_get k data /\
         dict_get k parsed =
           option_map (fun v => decode (encode v)) (dict_get k data)) /\
      (forall k v, k <> "old_state" -> k <> "new_state" ->
         dict_get k data = Some v -> json_native v = true ->
         dict_get k parsed = Some v).
Proof.
  intros fmt event data Htype Hdata Hok.
  destruct (filter_state_change_spec data Hok)
    as (payload & Hpayload & Hkeys & Hother & Hstates).
  set (parsed := map (fun kv : string * pyval =>
                        (fst kv, decode (encode (snd kv)))) payload).
  assert (Hparsed : decode (encode (PDict payload)) = PDict parsed).
  { rewrite decode_encode_dict. fold parsed. f_equal.
    apply dict_of_items_ok. unfold dict_ok, parsed.
    rewrite (keys_map_snd (fun v => decode (encode v))), Hkeys. exact Hok. }
  assert (Hget : forall k, dict_get k parsed =
                           option_map (fun v => decode (encode v))
                                      (dict_get k payload)).
  { intros k. unfold parsed.
    apply (dict_get_map (fun v => decode (encode v))). }
  exists payload.
  exists (Events.mk None (Event.event_type event) (json_dumps (PDict payload))
                    (EventOrigin_str (Event.origin event))
                    (Event.time_fired event) None
                    (ctx_id (Event.context event))
                    (ctx_user_id (Event.context event))).
  exists parsed.
  split; [ exact Hpayload | ].
  split.
  { unfold Events.from_event, Events.payload.
    rewrite Htype, String.eqb_refl, Hdata, Hpayload. reflexivity. }
  split; [ reflexivity | ].
  split.
  { cbn [Events.event_data]. rewrite json_loads_dumps, Hparsed. reflexivity. }
  split; [ exact Hkeys | ].
  split.
  { unfold parsed.
    now rewrite (keys_map_snd (fun v => decode (encode v))). }
  split.
  { intros key Hkey. specialize (Hstates key Hkey).
    rewrite Hget, Hstates.
    destruct (dict_get key data) as [ v | ].
    - destruct (State.of_value v) as [ st | ].
      + split; [ reflexivity | ].
        destruct (parsed_state_form st) as (entry & attributes & He & Ha & Hk).
        exists entry, attributes. cbn [option_map]. rewrite He. auto.
      + reflexivity.
    - split; reflexivity. }
  split.
  { intros k H1 H2. rewrite Hget, Hother by assumption. split; reflexivity. }
  intros k v H1 H2 Hv Hnative.
  rewrite Hget, Hother, Hv by assumption.
  cbn [option_map]. now rewrite decode_encode_native.
Qed.

Lemma from_event_filters_state_data_witness :
  exists r parsed entry attributes,
    @Events.from_event clock_text
      (stateChangedEvent
         (Some (State.mk "light.kitchen" "light" "off"
                  [("icon", PStr "mdi:lamp"); ("friendly_name", PStr "Kitchen")]
                  (Some (mkDatetime 1000 (Some UTC)))
                  (Some (mkDatetime 1000 (Some UTC)))
                  (mkContext None None)))
         (State.mk "light.kitchen" "light" "on"
            [("icon", PStr "mdi:lamp"); ("friendly_name", PStr "Kitchen")]
            (Some (mkDatetime 2000 (Some UTC)))
            (Some (mkDatetime 2000 (Some UTC)))
            (mkContext None None))
         local (Some (mkDatetime 2000 (Some UTC))) (mkContext None None)) =
      Return r /\
    json_loads (Events.event_data r) = Return (PDict parsed) /\
    dict_get "entity_id" parsed = Some (PStr "light.kitchen") /\
    dict_get "new_state" parsed = Some (PDict entry) /\
    dict_get "attributes" entry = Some (PDict attributes) /\
    dict_get "icon" attributes = None.
Proof.
  edestruct (from_event_filters_state_data clock_text
               (stateChangedEvent
                  (Some (State.mk "light.kitchen" "light" "off"
                           [("icon", PStr "mdi:lamp");
                            ("friendly_name", PStr "Kitchen")]
                           (Some (mkDatetime 1000 (Some UTC)))
                           (Some (mkDatetime 1000 (Some UTC)))
                           (mkContext None None)))
                  (State.mk "light.kitchen" "light" "on"
                     [("icon", PStr "mdi:lamp");
                      ("friendly_name", PStr "Kitchen")]
                     (Some (mkDatetime 2000 (Some UTC)))
                     (Some (mkDatetime 2000 (Some UTC)))
                     (mkContext None None))
                  local (Some (mkDatetime 2000 (Some UTC)))
                  (mkContext None None)))
    as (payload & r & parsed & _ & Hr & _ & Hparsed & _ & _ & Hstates
        & _ & Hnative).
  - reflexivity.
  - reflexivity.
  - apply unique_NoDup. reflexivity.
  - destruct (Hstates "new_state" (or_intror eq_refl))
      as (_ & entry & attributes & Hentry & Hattrs & Hkeys).
    exists r, parsed, entry, attributes.
    split; [ exact Hr | ]. split; [ exact Hparsed | ].
    split; [ apply Hnative; try discriminate; reflexivity | ].
    split; [ exact Hentry | ]. split; [ exact Hattrs | ].
    apply Hkeys. vm_compute. tauto.
Defined.

(** ** Copying and mutation on the heap *)


Lemma read_new h o l : l = length h -> Heap.read (h ++ [o]) l = Some o.
Proof. intros ->. apply read_alloc_new. Qed.

Ltac heap_len :=
  repeat (rewrite ?length_app, ?length_write in *; cbn [length] in * ).

Ltac read_heap :=
  repeat first
    [ rewrite read_write_same by (heap_len; lia)
    | rewrite read_write_other by (heap_len; lia)
    | rewrite read_new by (heap_len; lia)
    | rewrite read_alloc_old by (heap_len; lia) ].

Ltac run_heap :=
  repeat (progress
            (unfold Heap.ret, Heap.raise, Heap.new, Heap.alloc;
             cbv beta iota; heap_len; read_heap;
             rewrite ?dict_get_set, ?String.eqb_refl;
             cbn [dict_get String.eqb Ascii.eqb Bool.eqb])).

Lemma writes_only_refl fl h : writes_only fl h h.
Proof. split; auto. Qed.

(** One turn of the loop: when the entry under [key] is a state
    object, four objects are allocated (the copy of the attributes, the
    dict form of the context, the dict form of the state, the filtered
    attributes) and the mapping at [fl] gets the dict form under
    [key]; otherwise nothing happens.  No other object is written. *)
Lemma filter_state_entry_run fl key h fd :
  Heap.read h fl = Some (Heap.ODict fd) ->
  (forall v, dict_get key fd = Some v -> state_ok h v) ->
  exists h' fd',
    Heap.filter_state_entry (Heap.VRef fl) key h = Return (tt, h') /\
    writes_only fl h h' /\
    Heap.read h' fl = Some (Heap.ODict fd') /\
    match dict_get key fd with
    | Some (Heap.VRef l) =>
        match Heap.read h l with
        | Some (Heap.OState e d s a lc lu c) =>
            exists attrs,
              Heap.read h a = Some (Heap.ODict attrs) /\
              fd' = dict_set key (Heap.VRef (length h + 2)) fd /\
              Heap.read h' (length h + 1) =
                Some (Heap.ODict
                        [("id", Heap.optstr_value (ctx_id c));
                         ("user_id", Heap.optstr_value (ctx_user_id c))]) /\
              Heap.read h' (length h + 2) =
                Some (Heap.ODict
                        [("entity_id", Heap.VStr e);
                         ("state", Heap.VStr s);
                         ("attributes", Heap.VRef (length h + 3));
                         ("last_changed", Heap.datetime_value lc);
                         ("last_updated", Heap.datetime_value lu);
                         ("context", Heap.VRef (length h + 1))]) /\
              Heap.read h' (length h + 3) =
                Some (Heap.ODict (_filter_attributes (dict_copy attrs)))
        | _ => h' = h /\ fd' = fd
        end
    | _ => h' = h /\ fd' = fd
    end.
Proof.
  intros Hread Hkey.
  pose proof (read_Some_lt _ _ _ Hread) as Hlt.
  unfold Heap.filter_state_entry, Heap.bind at 1, Heap.get_dict.
  rewrite Hread.
  destruct (dict_get key fd) as [ v | ] eqn:Hget.
  2: { exists h, fd. repeat split; auto. }
  specialize (Hkey v eq_refl).
  unfold Heap.bind at 1, Heap.is_State.
  destruct v as [ | b | z | s | dt | l ];
    try (exists h, fd; repeat split; auto; fail).
  destruct (Heap.read h l) as [ [ items | items | e d s a lc lu c ] | ] eqn:Hl;
    try (exists h, fd; repeat split; auto; fail).
  destruct (Hkey l e d s a lc lu c eq_refl Hl) as (attrs & Ha).
  pose proof (read_Some_lt _ _ _ Ha) as Halt.
  pose proof (read_Some_lt _ _ _ Hl) as Hllt.
  unfold Heap.bind, Heap.as_dict, Heap.get_dict, Heap.set_item,
    Heap.get_item, Heap._filter_attributes, Heap.bind, Heap.get_dict.
  rewrite Hl, Ha. run_heap. rewrite Hread. run_heap.
  eexists. eexists. split; [ reflexivity | ].
  split.
  { split; [ heap_len; lia | ].
    intros l' Hl' Hne. read_heap. reflexivity. }
  read_heap.
  split; [ reflexivity | ].
  exists attrs.
  replace (length h + 1 + 1 + 1) with (length h + 3) by lia.
  replace (length h + 1 + 1) with (length h + 2) by lia.
  repeat split; read_heap; reflexivity.
Qed.







(** ** The heap and the values of the codecs *)


Lemma all2_impl {A B} (R R' : A -> B -> Prop) l l' :
  Forall (fun y => forall x, R x y -> R' x y) l' ->
  all2 R l l' -> all2 R' l l'.
Proof.
  intros H. revert l.
  induction H as [ | y l' Hy Hl' IH ]; intros [ | x l ]; simpl; auto.
  intros (Hxy & Hrest). split; auto.
Qed.

Lemma all2_entries_impl {A B} (R R' : A -> B -> Prop) d (p : dict B) :
  Forall (fun kp => forall x, R x (snd kp) -> R' x (snd kp)) p ->
  all2 (entry_rel R) d p -> all2 (entry_rel R') d p.
Proof.
  intros H. apply all2_impl.
  eapply Forall_impl; [ | exact H ].
  intros kp Hkp kv (Hk & Hv). split; auto.
Qed.

Lemma represents_mono (ok ok' : Heap.loc -> Prop) (h h' : Heap.heap) p :
  (forall l, ok l -> ok' l) ->
  (forall l, ok l -> Heap.read h' l = Heap.read h l) ->
  forall v, represents ok h v p -> represents ok' h' v p.
Proof.
  intros Hok Hread.
  induction p as [ | b | n | s | d | ps IH | ps IH
                 | e d s ps lc lu c IH ] using pyval_ind';
    intros v; simpl; auto.
  - intros (l & items & -> & Hl & Hr & Hall).
    exists l, items. rewrite Hread by exact Hl. repeat split; auto.
    revert Hall. apply all2_impl. exact IH.
  - intros (l & items & -> & Hl & Hr & Hall).
    exists l, items. rewrite Hread by exact Hl. repeat split; auto.
    revert Hall. apply (all2_entries_impl (represents ok h) (represents ok' h')).
    exact IH.
  - intros (l & a & attrs & -> & Hl & Ha & Hr & Hra & Hall).
    exists l, a, attrs. rewrite !Hread by assumption. repeat split; auto.
    revert Hall. apply (all2_entries_impl (represents ok h) (represents ok' h')).
    exact IH.
Qed.

(** A representation only goes through objects of the heap. *)
Lemma represents_allocated (ok : Heap.loc -> Prop) (h : Heap.heap) p :
  forall v, represents ok h v p ->
            represents (fun l => ok l /\ l < length h) h v p.
Proof.
  induction p as [ | b | n | s | d | ps IH | ps IH
                 | e d s ps lc lu c IH ] using pyval_ind';
    intros v; simpl; auto.
  - intros (l & items & -> & Hl & Hr & Hall).
    exists l, items. repeat split; eauto using read_Some_lt.
    revert Hall. apply all2_impl. exact IH.
  - intros (l & items & -> & Hl & Hr & Hall).
    exists l, items. repeat split; eauto using read_Some_lt.
    revert Hall.
    apply (all2_entries_impl (represents ok h)
             (represents (fun l => ok l /\ l < length h) h)).
    exact IH.
  - intros (l & a & attrs & -> & Hl & Ha & Hr & Hra & Hall).
    exists l, a, attrs. repeat split; eauto using read_Some_lt.
    revert Hall.
    apply (all2_entries_impl (represents ok h)
             (represents (fun l => ok l /\ l < length h) h)).
    exact IH.
Qed.

Lemma all2_keys {A B} (R : A -> B -> Prop) (d : dict A) (p : dict B) :
  all2 (entry_rel R) d p -> keys d = keys p.
Proof.
  revert d. induction p as [ | kp p IH ]; intros [ | kv d ]; simpl;
    try tauto.
  intros ((Hk & _) & Hrest). f_equal; auto.
Qed.

Lemma all2_get {A B} (R : A -> B -> Prop) (d : dict A) (p : dict B) k :
  all2 (entry_rel R) d p ->
  match dict_get k d, dict_get k p with
  | Some v, Some q => R v q
  | None, None => True
  | _, _ => False
  end.
Proof.
  revert d. induction p as [ | [k2 q] p IH ]; intros [ | [k1 v] d ]; simpl;
    try tauto.
  intros ((Hk & Hv) & Hrest). simpl in Hk, Hv. subst k2.
  destruct (String.eqb k k1); [ exact Hv | apply IH; exact Hrest ].
Qed.

Lemma all2_set {A B} (R : A -> B -> Prop) (d : dict A) (p : dict B) k v q :
  all2 (entry_rel R) d p -> R v q ->
  all2 (entry_rel R) (dict_set k v d) (dict_set k q p).
Proof.
  intros Hall Hvq. revert d Hall.
  induction p as [ | [k2 q2] p IH ]; intros [ | [k1 v1] d ]; simpl;
    try tauto.
  - intros _. repeat split; auto.
  - intros ((Hk & Hv) & Hrest). simpl in Hk, Hv. subst k2.
    destruct (String.eqb k k1); simpl.
    + repeat split; auto.
    + repeat split; auto.
Qed.

Lemma all2_filter {A B} (R : A -> B -> Prop) (f : string -> bool)
    (d : dict A) (p : dict B) :
  all2 (entry_rel R) d p ->
  all2 (entry_rel R) (filter (fun kv => f (fst kv)) d)
       (filter (fun kv => f (fst kv)) p).
Proof.
  revert d. induction p as [ | [k2 q2] p IH ]; intros [ | [k1 v1] d ]; simpl;
    try tauto.
  intros ((Hk & Hv) & Hrest). simpl in Hk, Hv. subst k2.
  destruct (f k1); simpl; auto. repeat split; auto.
Qed.

Lemma all2_of_items {A B} (R : A -> B -> Prop) (d : dict A) (p : dict B) :
  all2 (entry_rel R) d p ->
  all2 (entry_rel R) (dict_of_items d) (dict_of_items p).
Proof.
  unfold dict_of_items.
  assert (H : forall (acc : dict A) (pacc : dict B),
            all2 (entry_rel R) acc pacc -> all2 (entry_rel R) d p ->
            all2 (entry_rel R)
              (fold_left (fun d kv => dict_set (fst kv) (snd kv) d) d acc)
              (fold_left (fun d kv => dict_set (fst kv) (snd kv) d) p pacc)).
  { revert d. induction p as [ | [k2 q2] p IH ]; intros [ | [k1 v1] d ];
      simpl; try tauto.
    intros acc pacc Hacc ((Hk & Hv) & Hrest). simpl in Hk, Hv. subst k2.
    apply IH; auto. now apply all2_set. }
  intros Hall. apply H; simpl; auto.
Qed.

Lemma all2_filter_attributes {A B} (R : A -> B -> Prop)
    (d : dict A) (p : dict B) :
  all2 (entry_rel R) d p ->
  all2 (entry_rel R) (_filter_attributes d) (_filter_attributes p).
Proof.
  intros H. unfold _filter_attributes, dict_items.
  apply all2_of_items.
  now apply (all2_filter R
               (fun k => negb (in_keys k KEYS_TO_FILTER_FROM_DB))).
Qed.

Lemma all2_dict_copy {A B} (R : A -> B -> Prop) (d : dict A) (p : dict B) :
  all2 (entry_rel R) d p -> all2 (entry_rel R) (dict_copy d) (dict_copy p).
Proof. apply all2_of_items. Qed.

Lemma represents_state_ok ok h v p : represents ok h v p -> state_ok h v.
Proof.
  intros Hrep l e d s a lc lu c -> Hl.
  destruct p; simpl in Hrep; try discriminate.
  - destruct Hrep as (l' & items' & [= <-] & _ & Hr & _). congruence.
  - destruct Hrep as (l' & items' & [= <-] & _ & Hr & _). congruence.
  - destruct Hrep as (l' & a' & attrs & [= <-] & _ & _ & Hr & Ha & _).
    rewrite Hl in Hr. injection Hr as <- <- <- <- <- <- <-. eauto.
Qed.

Lemma filter_state_entry_state key (filtered_dict : dict pyval) v st :
  dict_get key filtered_dict = Some v ->
  State.of_value v = Some st ->
  filter_state_entry key filtered_dict =
  Return (dict_set key
            (PDict (dict_set "attributes"
                      (PDict (_filter_attributes
                                (dict_copy (State.attributes st))))
                      (State.as_dict st)))
            filtered_dict).
Proof.
  intros Hget Hst. unfold filter_state_entry. rewrite Hget, Hst.
  unfold subscript. rewrite dict_get_set, String.eqb_refl.
  cbn [obind mapping_of].
  change (dict_get "attributes" (State.as_dict st))
    with (Some (PDict (dict_copy (State.attributes st)))).
  cbn [obind mapping_of]. now rewrite dict_set_set.
Qed.

Lemma represents_kept fl h h' v p :
  writes_only fl h h' ->
  represents (fun l => l <> fl) h v p ->
  represents (fun l => l <> fl) h' v p.
Proof.
  intros (_ & Hw) Hrep. apply represents_allocated in Hrep.
  revert Hrep. apply represents_mono.
  - tauto.
  - intros l (Hne & Hlt). now apply Hw.
Qed.

Lemma all2_represents_kept fl h h' (d : dict Heap.value) (p : dict pyval) :
  writes_only fl h h' ->
  all2 (entry_rel (represents (fun l => l <> fl) h)) d p ->
  all2 (entry_rel (represents (fun l => l <> fl) h')) d p.
Proof.
  intros Hw. apply all2_entries_impl.
  apply Forall_forall. intros kp _ x. now apply represents_kept.
Qed.

(** One turn of the loop on the heap does what the turn on values
    does. *)
Lemma filter_state_entry_refines fl key h fd pfd :
  Heap.read h fl = Some (Heap.ODict fd) ->
  all2 (entry_rel (represents (fun l => l <> fl) h)) fd pfd ->
  exists h' fd' pfd',
    Heap.filter_state_entry (Heap.VRef fl) key h = Return (tt, h') /\
    filter_state_entry key pfd = Return pfd' /\
    writes_only fl h h' /\
    Heap.read h' fl = Some (Heap.ODict fd') /\
    all2 (entry_rel (represents (fun l => l <> fl) h')) fd' pfd'.
Proof.
  intros Hread Hall.
  pose proof (read_Some_lt _ _ _ Hread) as Hfl.
  pose proof (all2_get _ _ _ key Hall) as Hget.
  destruct (filter_state_entry_run fl key h fd Hread)
    as (h' & fd' & Hrun & Hw & Hfl' & Hcases).
  { intros v Hv. rewrite Hv in Hget.
    destruct (dict_get key pfd) as [ q | ]; [ | contradiction ].
    eapply represents_state_ok; eauto. }
  exists h', fd'.
  destruct (dict_get key fd) as [ v | ] eqn:Hv;
    destruct (dict_get key pfd) as [ q | ] eqn:Hq; try contradiction.
  2: { destruct Hcases as (-> & ->). exists pfd.
       unfold filter_state_entry. rewrite Hq. auto. }
  assert (Hsame : State.of_value q = None -> h' = h /\ fd' = fd ->
                  exists pfd',
                    Heap.filter_state_entry (Heap.VRef fl) key h =
                      Return (tt, h') /\
                    filter_state_entry key pfd = Return pfd' /\
                    writes_only fl h h' /\
                    Heap.read h' fl = Some (Heap.ODict fd') /\
                    all2 (entry_rel (represents (fun l => l <> fl) h'))
                         fd' pfd').
  { intros Hnone (-> & ->). exists pfd.
    unfold filter_state_entry. rewrite Hq, Hnone. auto. }
  destruct q as [ | b | n | s | dt | ps | ps | e d s ps lc lu c ];
    simpl in Hget.
  - subst v. now apply Hsame.
  - subst v. now apply Hsame.
  - subst v. now apply Hsame.
  - subst v. now apply Hsame.
  - subst v. now apply Hsame.
  - destruct Hget as (l & items & -> & _ & Hl & _). rewrite Hl in Hcases.
    now apply Hsame.
  - destruct Hget as (l & items & -> & _ & Hl & _). rewrite Hl in Hcases.
    now apply Hsame.
  - clear Hsame.
    destruct Hget as (l & a & attrs & -> & Hokl & Hoka & Hl & Ha & Hattrs).
    rewrite Hl in Hcases.
    destruct Hcases as (attrs' & Ha' & -> & Hctx & Hentry & Hfiltered).
    assert (attrs' = attrs) by congruence. subst attrs'.
    eexists. split; [ exact Hrun | ].
    split; [ eapply filter_state_entry_state; [ exact Hq | reflexivity ] | ].
    split; [ exact Hw | ]. split; [ exact Hfl' | ].
    apply all2_set; [ eapply all2_represents_kept; eauto | ].
    pose proof (all2_represents_kept _ _ _ _ _ Hw Hattrs) as Hattrs'.
    simpl.
    eexists _, _. split; [ reflexivity | ].
    split; [ lia | ]. split; [ exact Hentry | ].
    cbn [all2 fst snd represents].
    repeat split.
    + eexists _, _. split; [ reflexivity | ].
      split; [ lia | ]. split; [ exact Hfiltered | ].
      now apply (all2_filter_attributes
                   (represents (fun l0 => l0 <> fl) h')),
                (all2_dict_copy (represents (fun l0 => l0 <> fl) h')).
    + destruct lc; reflexivity.
    + destruct lu; reflexivity.
    + eexists _, _. split; [ reflexivity | ].
      split; [ lia | ]. split; [ exact Hctx | ].
      cbn [all2 fst snd]. repeat split.
      * destruct (ctx_id c); reflexivity.
      * destruct (ctx_user_id c); reflexivity.
Qed.

(** X17.  The function on the heap refines the function on values: from data
    that represent the same event data, both return, and the mapping
    the first returns represents the mapping the second returns. *)
Theorem heap_filter_refines :
  forall (h : Heap.heap) (d : Heap.loc) (items : dict Heap.value)
         (data : dict pyval),
    Heap.read h d = Some (Heap.ODict items) ->
    all2 (entry_rel (represents (fun _ => True) h)) items data ->
    exists r h' payload,
      Heap._filter_state_change_event_data (Heap.VRef d) h =
        Return (Heap.VRef r, h') /\
      _filter_state_change_event_data data = Return payload /\
      represents (fun _ => True) h' (Heap.VRef r) (PDict payload).
Proof.
  intros h d items data Hread Hall.
  unfold Heap._filter_state_change_event_data, Heap.bind at 1, Heap.get_dict.
  rewrite Hread.
  unfold Heap.bind at 1, Heap.new, Heap.alloc.
  unfold _filter_state_change_event_data. cbn [fold_left obind].
  set (fl := length h).
  set (h1 := h ++ [Heap.ODict (dict_copy items)]).
  assert (R1 : Heap.read h1 fl = Some (Heap.ODict (dict_copy items)))
    by apply read_alloc_new.
  assert (A1 : all2 (entry_rel (represents (fun l => l <> fl) h1))
                    (dict_copy items) (dict_copy data)).
  { apply all2_dict_copy. revert Hall. apply all2_entries_impl.
    apply Forall_forall. intros kp _ x Hrep.
    apply represents_allocated in Hrep. revert Hrep.
    apply represents_mono.
    - intros l (_ & Hl). unfold fl. lia.
    - intros l (_ & Hl). now apply read_alloc_old. }
  destruct (filter_state_entry_refines fl "old_state" h1 _ _ R1 A1)
    as (h2 & fd2 & pfd2 & Hrun2 & Hpure2 & _ & R2 & A2).
  unfold Heap.bind at 1. rewrite Hrun2, Hpure2. cbn [obind].
  destruct (filter_state_entry_refines fl "new_state" h2 _ _ R2 A2)
    as (h3 & fd3 & pfd3 & Hrun3 & Hpure3 & _ & R3 & A3).
  unfold Heap.bind at 1. rewrite Hrun3, Hpure3.
  exists fl, h3, pfd3.
  split; [ reflexivity | ]. split; [ reflexivity | ].
  simpl. exists fl, fd3. repeat split; auto.
  revert A3. apply all2_entries_impl.
  apply Forall_forall. intros kp _ x. apply represents_mono; auto.
Qed.

(* ================================================================= *)
(** * Further properties of the codecs *)

(** ** Records written and read back *)

Lemma EventOrigin_of_str o : EventOrigin_of (EventOrigin_str o) = Return o.
Proof. destruct o; reflexivity. Qed.


Lemma process_timestamp_utc o : utc_aware o -> _process_timestamp o = o.
Proof. intros (c & ->). reflexivity. Qed.

Lemma process_timestamp_instant T :
  _process_timestamp (Some T) = Some (mkDatetime (instant T) (Some UTC)).
Proof.
  destruct T as [c [ [ | o ] | ]]; unfold instant; simpl; try reflexivity.
  now rewrite Z.sub_0_r.
Qed.

Lemma filter_state_entry_same key (filtered_dict : dict pyval) :
  (forall v, dict_get key filtered_dict = Some v -> State.of_value v = None) ->
  filter_state_entry key filtered_dict = Return filtered_dict.
Proof.
  intros H. unfold filter_state_entry.
  destruct (dict_get key filtered_dict) as [ v | ]; [ | reflexivity ].
  now rewrite (H v eq_refl).
Qed.

Lemma filter_state_change_same (data : dict pyval) :
  dict_ok data ->
  (forall v, dict_get "old_state" data = Some v -> State.of_value v = None) ->
  (forall v, dict_get "new_state" data = Some v -> State.of_value v = None) ->
  _filter_state_change_event_data data = Return data.
Proof.
  intros Hok Hold Hnew. unfold _filter_state_change_event_data.
  rewrite dict_copy_ok by exact Hok. cbn [fold_left obind].
  rewrite filter_state_entry_same by exact Hold. cbn [obind].
  now apply filter_state_entry_same.
Qed.

Lemma filter_state_change_returns (data : dict pyval) :
  exists payload, _filter_state_change_event_data data = Return payload.
Proof.
  unfold _filter_state_change_event_data. cbn [fold_left obind].
  destruct (filter_state_entry_spec "old_state" (dict_copy data))
    as (d1 & -> & _).
  cbn [obind].
  destruct (filter_state_entry_spec "new_state" d1) as (d2 & -> & _).
  eauto.
Qed.

Lemma json_native_not_state v :
  json_native v = true -> State.of_value v = None.
Proof. destruct v; simpl; intros H; try reflexivity; discriminate. Qed.

Lemma json_native_entry (d : dict pyval) k v :
  forallb (fun kv => json_native (snd kv)) d = true ->
  dict_get k d = Some v -> json_native v = true.
Proof.
  intros Hall Hget. rewrite forallb_forall in Hall.
  change v with (snd (k, v)). apply Hall.
  revert Hget. clear Hall.
  induction d as [ | [k' v'] d IH ]; simpl; [ discriminate | ].
  destruct (String.eqb_spec k k') as [ -> | Hne ].
  - intros [= ->]. now left.
  - intros H. right. auto.
Qed.

(** X1.  An event whose data is a mapping of values JSON has a form of
    its own for, fired at a timestamp already in UTC, is written to a
    record and read back as the very same event, and nothing is
    logged. *)
Theorem events_round_trip :
  forall (fmt : datetime_format) (event : Event.t) (data : dict pyval)
         (log : list string),
    Event.data event = PDict data ->
    json_native (Event.data event) = true ->
    utc_aware (Event.time_fired event) ->
    exists r,
      Events.from_event event = Return r /\
      Events.to_native r log = (Return (Some event), log).
Proof.
  intros fmt event data log Hdata Hnative Htime.
  assert (Hpayload : Events.payload event = Return (Event.data event)).
  { unfold Events.payload.
    destruct (String.eqb (Event.event_type event) EVENT_STATE_CHANGED);
      [ | reflexivity ].
    rewrite Hdata in *. simpl in Hnative.
    apply andb_true_iff in Hnative as (Hkeys & Hvalues).
    rewrite filter_state_change_same; [ reflexivity | | | ].
    - now apply unique_NoDup.
    - intros v Hv. eapply json_native_not_state, json_native_entry; eauto.
    - intros v Hv. eapply json_native_not_state, json_native_entry; eauto. }
  unfold Events.from_event. rewrite Hpayload. cbn [obind].
  eexists. split; [ reflexivity | ].
  unfold Events.to_native, try_except, pure. cbn.
  rewrite json_loads_dumps, decode_encode_native by exact Hnative.
  cbn [obind]. rewrite EventOrigin_of_str. cbn [obind].
  rewrite process_timestamp_utc by exact Htime.
  destruct event as [t d o tf [cid cuid]]. reflexivity.
Qed.

Lemma events_round_trip_witness :
  exists r,
    @Events.from_event clock_text
      (Event.mk "call_service"
         (PDict [("domain", PStr "light"); ("service", PStr "turn_on");
                 ("service_data",
                  PDict [("entity_id", PList [PStr "light.kitchen"]);
                         ("brightness", PInt 120)])])
         remote (Some (mkDatetime 1000 (Some UTC)))
         (mkContext (Some "c1") (Some "u1"))) = Return r /\
    Events.to_native r [] =
      (Return
         (Some (Event.mk "call_service"
                  (PDict [("domain", PStr "light"); ("service", PStr "turn_on");
                          ("service_data",
                           PDict [("entity_id", PList [PStr "light.kitchen"]);
                                  ("brightness", PInt 120)])])
                  remote (Some (mkDatetime 1000 (Some UTC)))
                  (mkContext (Some "c1") (Some "u1")))), []).
Proof.
  eapply (events_round_trip clock_text
            (Event.mk "call_service"
               (PDict [("domain", PStr "light"); ("service", PStr "turn_on");
                       ("service_data",
                        PDict [("entity_id", PList [PStr "light.kitchen"]);
                               ("brightness", PInt 120)])])
               remote (Some (mkDatetime 1000 (Some UTC)))
               (mkContext (Some "c1") (Some "u1")))).
  - reflexivity.
  - reflexivity.
  - eexists. reflexivity.
Defined.



(** X3.  [Events.from_event] returns a record for every event that is
    not a state change, and for every state change whose data is a
    mapping.  The record copies the type, the time of firing and both
    context identifiers; its origin is the tag of a member of the
    enumeration, and its [event_data] is text that [json.loads]
    accepts. *)
Theorem events_from_event_returns :
  forall (fmt : datetime_format) (event : Event.t),
    Event.event_type event <> EVENT_STATE_CHANGED \/
    (exists data, Event.data event = PDict data) ->
    exists r,
      Events.from_event event = Return r /\
      Events.event_type r = Event.event_type event /\
      EventOrigin_of (Events.origin r) = Return (Event.origin event) /\
      Events.time_fired r = Event.time_fired event /\
      Events.context_id r = ctx_id (Event.context event) /\
      Events.context_user_id r = ctx_user_id (Event.context event) /\
      exists parsed, json_loads (Events.event_data r) = Return parsed.
Proof.
  intros fmt event Hkind.
  assert (Hpayload : exists payload, Events.payload event = Return payload).
  { unfold Events.payload.
    destruct (String.eqb_spec (Event.event_type event) EVENT_STATE_CHANGED)
      as [ Htype | Htype ]; [ | eauto ].
    destruct Hkind as [ Hne | (data & ->) ]; [ contradiction | ].
    destruct (filter_state_change_returns data) as (p & ->). simpl. eauto. }
  destruct Hpayload as (payload & Hpayload).
  unfold Events.from_event. rewrite Hpayload. cbn [obind].
  eexists. split; [ reflexivity | ]. cbn.
  repeat split; try reflexivity.
  - apply EventOrigin_of_str.
  - rewrite json_loads_dumps. eauto.
Qed.

Lemma events_from_event_returns_witness :
  exists r,
    @Events.from_event clock_text
      (Event.mk "state_changed"
         (PDict [("entity_id", PStr "light.kitchen");
                 ("new_state",
                  PState "light.kitchen" "light" "on"
                         [("icon", PStr "mdi:lamp")] None None
                         (mkContext None None))])
         local None (mkContext None None)) = Return r /\
    Events.event_type r = "state_changed".
Proof.
  edestruct (events_from_event_returns clock_text
               (Event.mk "state_changed"
                  (PDict [("entity_id", PStr "light.kitchen");
                          ("new_state",
                           PState "light.kitchen" "light" "on"
                                  [("icon", PStr "mdi:lamp")] None None
                                  (mkContext None None))])
                  local None (mkContext None None)))
    as (r & Hr & Htype & _).
  - right. eexists. reflexivity.
  - exists r. split; [ exact Hr | exact Htype ].
Defined.



(** X6.  Whatever the stored rows hold, every timestamp of a state or of
    an event that the codecs read back carries the UTC zone. *)
Theorem native_timestamps_utc :
  forall (sr : States.t) (er : Events.t) (log log1 log2 : list string)
         (s : State.t) (e : Event.t),
    States.to_native sr log = (Return (Some s), log1) ->
    Events.to_native er log = (Return (Some e), log2) ->
    (forall ts, State.last_changed s = Some ts -> dt_tzinfo ts = Some UTC) /\
    (forall ts, State.last_updated s = Some ts -> dt_tzinfo ts = Some UTC) /\
    (forall ts, Event.time_fired e = Some ts -> dt_tzinfo ts = Some UTC).
Proof.
  assert (Hutc : forall o ts, _process_timestamp o = Some ts ->
                              dt_tzinfo ts = Some UTC).
  { intros [ T | ] ts; [ | discriminate ].
    rewrite process_timestamp_instant. intros [= <-]. reflexivity. }
  intros sr er log log1 log2 s e Hs He.
  unfold States.to_native, try_except, pure, lbind, log_exception in Hs.
  unfold Events.to_native, try_except, pure, lbind, log_exception in He.
  destruct (json_loads (States.attributes sr)) as [ attrs | x ];
    cbn [obind] in Hs.
  2: { destruct x; discriminate. }
  destruct (State.new _ _ attrs _ _ _) as [ s' | x ] eqn:Hnew;
    cbn [obind] in Hs.
  2: { destruct x; discriminate. }
  injection Hs as <- _.
  unfold State.new in Hnew.
  destruct attrs; try discriminate.
  destruct (split_entity_id (States.entity_id sr)); [ discriminate | ].
  injection Hnew as <-. cbn.
  destruct (json_loads (Events.event_data er)) as [ data | x ];
    cbn [obind] in He.
  2: { destruct x; discriminate. }
  destruct (EventOrigin_of (Events.origin er)) as [ o | x ];
    cbn [obind] in He.
  2: { destruct x; discriminate. }
  injection He as <- _. cbn.
  repeat split; intros ts; apply Hutc.
Qed.

Lemma native_timestamps_utc_witness :
  (forall ts, Some (mkDatetime 1000 (Some UTC)) = Some ts ->
              dt_tzinfo ts = Some UTC) /\
  (forall ts, Some (mkDatetime (2000 - 3600) (Some UTC)) = Some ts ->
              dt_tzinfo ts = Some UTC) /\
  (forall ts, @None datetime = Some ts -> dt_tzinfo ts = Some UTC).
Proof.
  apply (native_timestamps_utc
           (States.mk (Some 1%Z) "light" "light.kitchen" "on" "{}" None
                      (Some (mkDatetime 1000 None))
                      (Some (mkDatetime 2000 (Some (FixedOffset 3600))))
                      None None None)
           (Events.mk (Some 1%Z) "call_service" "{}" "LOCAL" None None
                      None None)
           [] [] []
           (State.mk "light.kitchen" "light" "on" []
                     (Some (mkDatetime 1000 (Some UTC)))
                     (Some (mkDatetime (2000 - 3600) (Some UTC)))
                     (mkContext None None))
           (Event.mk "call_service" (PDict []) local None
                     (mkContext None None)));
    reflexivity.
Defined.

(** ** State records written and read back *)

(** The two ways [States.from_event] makes a record. *)
Lemma states_from_event_inv {fmt : datetime_format} (event : Event.t)
    (r : States.t) :
  States.from_event event = Return r ->
  exists data entity_id,
    Event.data event = PDict data /\
    dict_get "entity_id" data = Some (PStr entity_id) /\
    ((dict_get_default data "new_state" = PNone /\
      exists domain others,
        split_entity_id entity_id = domain :: others /\
        r = States.mk None domain entity_id "" "{}" None
              (Event.time_fired event) (Event.time_fired event) None
              (ctx_id (Event.context event))
              (ctx_user_id (Event.context event))) \/
     (exists st,
        State.of_value (dict_get_default data "new_state") = Some st /\
        r = States.mk None (State.domain st) entity_id (State.state st)
              (json_dumps
                 (PDict (_filter_attributes (dict_copy (State.attributes st)))))
              None (State.last_changed st) (State.last_updated st) None
              (ctx_id (Event.context event))
              (ctx_user_id (Event.context event)))).
Proof.
  unfold States.from_event, subscript.
  destruct (Event.data event) as [ | | | | | | data | ]; try discriminate.
  cbn [mapping_of obind].
  destruct (dict_get "entity_id" data) as [ v | ] eqn:Hid; [ | discriminate ].
  cbn [obind]. intros H. exists data.
  destruct (dict_get_default data "new_state") as [ | | | | | | | e d s a lc lu c ]
    eqn:Hnew; cbn in H; try discriminate.
  - destruct v as [ | | | entity_id | | | | ]; try discriminate.
    destruct (split_entity_id entity_id) as [ | domain others ] eqn:Hsplit;
      [ discriminate | ].
    injection H as <-. exists entity_id.
    split; [ reflexivity | ]. split; [ exact Hid | ]. left.
    split; [ reflexivity | ]. exists domain, others.
    split; [ exact Hsplit | reflexivity ].
  - destruct v as [ | | | entity_id | | | | ]; try discriminate.
    injection H as <-. exists entity_id.
    split; [ reflexivity | ]. split; [ exact Hid | ]. right.
    eexists. split; reflexivity.
Qed.

Lemma filtered_attributes_parsed {fmt : datetime_format} (A : dict pyval) :
  exists attrs,
    json_loads (json_dumps (PDict (_filter_attributes A))) =
      Return (PDict attrs) /\
    forall k, In k KEYS_TO_FILTER_FROM_DB -> dict_get k attrs = None.
Proof.
  rewrite json_loads_dumps, decode_encode_dict. eexists.
  split; [ reflexivity | ].
  intros k Hk. apply dict_get_None. intros Hin.
  apply dict_of_items_keys in Hin.
  rewrite (keys_map_snd (fun v => decode (encode v))) in Hin.
  revert Hin. now apply filter_attributes_no_key.
Qed.


(** X7.  The [attributes] column of every record that
    [States.from_event] returns is the JSON text of a mapping, and this
    mapping has none of the keys of [KEYS_TO_FILTER_FROM_DB]. *)
Theorem stored_attributes_filtered :
  forall (fmt : datetime_format) (event : Event.t) (r : States.t),
    States.from_event event = Return r ->
    exists attrs,
      json_loads (States.attributes r) = Return (PDict attrs) /\
      forall k, In k KEYS_TO_FILTER_FROM_DB -> dict_get k attrs = None.
Proof.
  intros fmt event r H.
  apply states_from_event_inv in H
    as (data & entity_id & _ & _ &
        [ (_ & domain & others & _ & ->) | (st & _ & ->) ]).
  - exists []. split; [ reflexivity | ]. intros k _. reflexivity.
  - cbn [States.attributes]. apply filtered_attributes_parsed.
Qed.

Lemma stored_attributes_filtered_witness :
  exists attrs,
    json_loads
      (@json_dumps clock_text
         (PDict (_filter_attributes
                   (dict_copy [("icon", PStr "mdi:lamp");
                               ("when", PDatetime (mkDatetime 5 None))])))) =
      Return (PDict attrs) /\
    dict_get "icon" attrs = None.
Proof.
  edestruct (stored_attributes_filtered clock_text
               (Event.mk "state_changed"
                  (PDict [("entity_id", PStr "light.kitchen");
                          ("new_state",
                           PState "light.kitchen" "light" "on"
                                  [("icon", PStr "mdi:lamp");
                                   ("when", PDatetime (mkDatetime 5 None))]
                                  None None (mkContext None None))])
                  local None (mkContext None None)) _ eq_refl)
    as (attrs & Hparsed & Hkeys).
  exists attrs. split; [ exact Hparsed | ].
  apply Hkeys. vm_compute. tauto.
Defined.





(** X10.  [States.from_event] on data whose [new_state] is neither
    [None] nor a state object fails with an [AttributeError]: the value
    has no [domain]. *)
Theorem states_from_event_bad_new_state :
  forall (fmt : datetime_format) (event : Event.t) (data : dict pyval)
         (entity_id new_state : pyval),
    Event.data event = PDict data ->
    dict_get "entity_id" data = Some entity_id ->
    dict_get "new_state" data = Some new_state ->
    new_state <> PNone ->
    State.of_value new_state = None ->
    States.from_event event = Raise AttributeError.
Proof.
  intros fmt event data entity_id new_state Hdata Hid Hnew Hnone Hstate.
  unfold States.from_event, subscript, dict_get_default.
  rewrite Hdata. cbn [mapping_of obind]. rewrite Hid, Hnew. cbn [obind].
  destruct new_state; try congruence; try reflexivity; discriminate.
Qed.

Lemma states_from_event_bad_new_state_witness :
  @States.from_event clock_text
    (Event.mk "state_changed"
       (PDict [("entity_id", PStr "light.kitchen"); ("new_state", PStr "on")])
       local None (mkContext None None)) = Raise AttributeError.
Proof.
  apply (states_from_event_bad_new_state clock_text
           (Event.mk "state_changed"
              (PDict [("entity_id", PStr "light.kitchen");
                      ("new_state", PStr "on")])
              local None (mkContext None None))
           [("entity_id", PStr "light.kitchen"); ("new_state", PStr "on")]
           (PStr "light.kitchen") (PStr "on"));
    try reflexivity. discriminate.
Defined.

(** ** The data filter, again *)

(** X11.  Filtering is idempotent: the payload that
    [_filter_state_change_event_data] returns has unique keys again,
    holds no state object under [old_state] or [new_state], and is
    returned unchanged when it is filtered once more. *)
Theorem filter_state_change_idempotent :
  forall (data payload : dict pyval),
    dict_ok data ->
    _filter_state_change_event_data data = Return payload ->
    dict_ok payload /\
    _filter_state_change_event_data payload = Return payload /\
    forall key v, key = "old_state" \/ key = "new_state" ->
                  dict_get key payload = Some v -> State.of_value v = None.
Proof.
  intros data payload Hok Hrun.
  destruct (filter_state_change_spec data Hok)
    as (p & Hp & Hkeys & _ & Hstates).
  assert (p = payload) by congruence. subst p.
  assert (Hokp : dict_ok payload) by (unfold dict_ok; now rewrite Hkeys).
  assert (Hnone : forall key v, key = "old_state" \/ key = "new_state" ->
                    dict_get key payload = Some v -> State.of_value v = None).
  { intros key v Hkey Hv. rewrite (Hstates key Hkey) in Hv.
    destruct (dict_get key data) as [ v0 | ]; [ | discriminate ].
    destruct (State.of_value v0) eqn:Hst; injection Hv as <-;
      [ reflexivity | exact Hst ]. }
  split; [ exact Hokp | ]. split; [ | exact Hnone ].
  apply filter_state_change_same; [ exact Hokp | | ]; intros v Hv.
  - apply (Hnone "old_state" v); auto.
  - apply (Hnone "new_state" v); auto.
Qed.

Lemma filter_state_change_idempotent_witness :
  exists payload,
    _filter_state_change_event_data
      [("entity_id", PStr "light.kitchen");
       ("old_state", PNone);
       ("new_state",
        PState "light.kitchen" "light" "on"
               [("icon", PStr "mdi:lamp"); ("brightness", PInt 120)]
               None None (mkContext None None))] = Return payload /\
    _filter_state_change_event_data payload = Return payload.
Proof.
  eexists. split; [ reflexivity | ].
  eapply (filter_state_change_idempotent
            [("entity_id", PStr "light.kitchen");
             ("old_state", PNone);
             ("new_state",
              PState "light.kitchen" "light" "on"
                     [("icon", PStr "mdi:lamp"); ("brightness", PInt 120)]
                     None None (mkContext None None))]).
  - apply unique_NoDup. reflexivity.
  - reflexivity.
Defined.

Lemma parsed_state_attributes {fmt : datetime_format} (st : State.t) :
  exists entry,
    decode (encode
              (PDict (dict_set "attributes"
                        (PDict (_filter_attributes
                                  (dict_copy (State.attributes st))))
                        (State.as_dict st)))) = PDict entry /\
    dict_get "attributes" entry =
      Some (decode (encode (PDict (_filter_attributes
                                     (dict_copy (State.attributes st)))))).
Proof.
  destruct st as [e d s attrs lc lu c].
  eexists. split; reflexivity.
Qed.

(** X12.  The two rows written for one state change agree: the
    attributes stored in the [States] row are the attributes of the
    [new_state] entry inside the [event_data] of the [Events] row. *)
Theorem event_and_state_rows_agree :
  forall (fmt : datetime_format) (event : Event.t) (data : dict pyval)
         (entity_id : string) (st : State.t),
    Event.event_type event = EVENT_STATE_CHANGED ->
    Event.data event = PDict data ->
    dict_ok data ->
    dict_get "entity_id" data = Some (PStr entity_id) ->
    dict_get "new_state" data = Some (State.to_value st) ->
    exists er sr parsed entry attrs,
      Events.from_event event = Return er /\
      States.from_event event = Return sr /\
      json_loads (States.attributes sr) = Return (PDict attrs) /\
      json_loads (Events.event_data er) = Return (PDict parsed) /\
      dict_get "new_state" parsed = Some (PDict entry) /\
      dict_get "attributes" entry = Some (PDict attrs).
Proof.
  intros fmt event data entity_id st Htype Hdata Hok Hid Hnew.
  destruct (filter_state_change_spec data Hok)
    as (payload & Hpayload & Hkeys & _ & Hstates).
  specialize (Hstates "new_state" (or_intror eq_refl)).
  rewrite Hnew in Hstates.
  assert (Hst : State.of_value (State.to_value st) = Some st)
    by (destruct st; reflexivity).
  rewrite Hst in Hstates.
  destruct (parsed_state_attributes st) as (entry & Hentry & Hattrs).
  rewrite decode_encode_dict in Hattrs.
  unfold Events.from_event, Events.payload.
  rewrite Htype, String.eqb_refl, Hdata, Hpayload. cbn [obind].
  unfold States.from_event, subscript, dict_get_default.
  rewrite Hdata. cbn [mapping_of obind]. rewrite Hid, Hnew. cbn [obind].
  destruct st as [e d s attrs lc lu c]. cbn [State.to_value State.of_value].
  eexists. eexists.
  exists (map (fun kv : string * pyval => (fst kv, decode (encode (snd kv))))
              payload).
  exists entry. eexists.
  split; [ reflexivity | ]. split; [ reflexivity | ].
  cbn [States.attributes Events.event_data State.attributes State.domain
       State.state State.last_changed State.last_updated].
  split; [ rewrite json_loads_dumps, decode_encode_dict; reflexivity | ].
  split.
  { rewrite json_loads_dumps, decode_encode_dict. do 2 f_equal.
    apply dict_of_items_ok. unfold dict_ok.
    rewrite (keys_map_snd (fun v => decode (encode v))), Hkeys. exact Hok. }
  split; [ | exact Hattrs ].
  rewrite (dict_get_map (fun v => decode (encode v))), Hstates.
  cbn [option_map]. now rewrite Hentry.
Qed.

Lemma event_and_state_rows_agree_witness :
  exists er sr parsed entry,
    @Events.from_event clock_text
      (stateChangedEvent None
         (State.mk "light.kitchen" "light" "on"
            [("icon", PStr "mdi:lamp"); ("brightness", PInt 120)]
            None None (mkContext None None))
         local None (mkContext None None)) = Return er /\
    @States.from_event clock_text
      (stateChangedEvent None
         (State.mk "light.kitchen" "light" "on"
            [("icon", PStr "mdi:lamp"); ("brightness", PInt 120)]
            None None (mkContext None None))
         local None (mkContext None None)) = Return sr /\
    json_loads (States.attributes sr) =
      Return (PDict [("brightness", PInt 120)]) /\
    json_loads (Events.event_data er) = Return (PDict parsed) /\
    dict_get "new_state" parsed = Some (PDict entry) /\
    dict_get "attributes" entry = Some (PDict [("brightness", PInt 120)]).
Proof.
  edestruct (event_and_state_rows_agree clock_text
               (stateChangedEvent None
                  (State.mk "light.kitchen" "light" "on"
                     [("icon", PStr "mdi:lamp"); ("brightness", PInt 120)]
                     None None (mkContext None None))
                  local None (mkContext None None)))
    as (er & sr & parsed & entry & attrs & Her & Hsr & Hattrs & Hparsed
        & Hentry & Hsame).
  - reflexivity.
  - reflexivity.
  - apply unique_NoDup. reflexivity.
  - reflexivity.
  - reflexivity.
  - exists er, sr, parsed, entry.
    assert (Ha : attrs = [("brightness", PInt 120)]).
    { pose proof Hsr as Hsr'. cbn in Hsr'. injection Hsr' as <-.
      vm_compute in Hattrs. congruence. }
    subst attrs. repeat split; assumption.
Defined.

(** ** The attribute filter and item assignment *)

Lemma filter_dict_set {V} (p : string -> bool) k (v : V) (A : dict V) :
  filter (fun kv => p (fst kv)) (dict_set k v A) =
  if p k then dict_set k v (filter (fun kv => p (fst kv)) A)
  else filter (fun kv => p (fst kv)) A.
Proof.
  induction A as [ | [k' v'] A IH ]; simpl.
  - destruct (p k); reflexivity.
  - destruct (String.eqb_spec k k') as [ -> | Hne ]; simpl.
    + destruct (p k'); simpl; [ now rewrite String.eqb_refl | reflexivity ].
    + rewrite IH. destruct (p k'), (p k); simpl; try reflexivity.
      destruct (String.eqb_spec k k'); [ contradiction | reflexivity ].
Qed.

Lemma dict_ok_set {V} k (v : V) (A : dict V) :
  dict_ok A -> dict_ok (dict_set k v A).
Proof.
  unfold dict_ok. intros Hok.
  destruct (in_dec string_dec k (keys A)) as [ Hin | Hin ].
  - now rewrite keys_dict_set.
  - rewrite dict_set_new by exact Hin. unfold keys. rewrite map_app. simpl.
    apply NoDup_app; [ exact Hok | repeat constructor; auto | ].
    intros x Hx [ <- | [] ]. contradiction.
Qed.

(** X13.  The attribute filter commutes with item assignment: setting
    a deny-listed key before filtering has no effect on the result, and
    setting another key before filtering is the same as setting it
    afterwards. *)
Theorem filter_attributes_dict_set :
  forall (V : Type) (A : dict V) (k : string) (v : V),
    dict_ok A ->
    _filter_attributes (dict_set k v A) =
    if in_keys k KEYS_TO_FILTER_FROM_DB then _filter_attributes A
    else dict_set k v (_filter_attributes A).
Proof.
  intros V A k v Hok.
  rewrite !filter_attributes_filter by auto using dict_ok_set.
  rewrite (filter_dict_set
             (fun k => negb (in_keys k KEYS_TO_FILTER_FROM_DB))).
  destruct (in_keys k KEYS_TO_FILTER_FROM_DB); reflexivity.
Qed.

Lemma filter_attributes_dict_set_witness :
  _filter_attributes
    (dict_set "icon" (PStr "mdi:lamp")
       (dict_set "brightness" (PInt 200)
          [("brightness", PInt 120); ("friendly_name", PStr "Kitchen")])) =
  [("brightness", PInt 200); ("friendly_name", PStr "Kitchen")].
Proof.
  rewrite (filter_attributes_dict_set pyval
             (dict_set "brightness" (PInt 200)
                [("brightness", PInt 120); ("friendly_name", PStr "Kitchen")])
             "icon" (PStr "mdi:lamp"));
    [ reflexivity | apply unique_NoDup; reflexivity ].
Defined.

(** ** The run window, again *)

Lemma entity_ids_In session run point_in_time ids e :
  RecorderRuns.entity_ids (Some session) run point_in_time = Return ids ->
  (In e ids <->
   exists row, In row (states session) /\ States.entity_id row = e /\
               in_window run point_in_time row).
Proof.
  unfold RecorderRuns.entity_ids. intros [= <-].
  unfold distinct, in_window. rewrite nodup_In, in_map_iff.
  split.
  - intros (row & Hid & Hin). exists row.
    destruct point_in_time as [ p | ];
      [ | destruct (RecorderRuns.end_ run) as [ e' | ] ];
      repeat match type of Hin with
             | In _ (filter _ _) => apply filter_In in Hin as (Hin & ?)
             end;
      repeat match goal with
             | H : sql_ge _ _ = true |- _ => apply sql_ge_ts_le in H
             | H : sql_lt _ _ = true |- _ => apply sql_lt_ts_lt in H
             end; auto.
  - intros (row & Hin & Hid & Hge & Hlt). exists row. split; [ exact Hid | ].
    apply sql_ge_ts_le in Hge.
    destruct point_in_time as [ p | ];
      [ | destruct (RecorderRuns.end_ run) as [ e' | ] ];
      repeat (apply filter_In; split); auto; now apply sql_lt_ts_lt.
Qed.

(** X14.  The answer of [entity_ids] grows with the point in time: an
    identifier answered for a point in time is answered for every later
    one. *)
Theorem entity_ids_monotone :
  forall (session : Session) (run : RecorderRuns.t) (p1 p2 : datetime)
         (ids1 ids2 : list string),
    (instant p1 <= instant p2)%Z ->
    RecorderRuns.entity_ids (Some session) run (Some p1) = Return ids1 ->
    RecorderRuns.entity_ids (Some session) run (Some p2) = Return ids2 ->
    incl ids1 ids2.
Proof.
  intros session run p1 p2 ids1 ids2 Hle H1 H2 e Hin.
  apply (entity_ids_In _ _ _ _ e H1) in Hin
    as (row & Hrow & Hid & Hge & Hlt).
  apply (entity_ids_In _ _ _ _ e H2).
  exists row. repeat split; auto.
  destruct (States.last_updated row) as [ lu | ]; simpl in *; [ lia | exact Hlt ].
Qed.

Lemma entity_ids_monotone_witness :
  incl ["sensor.b"] ["sensor.b"; "sensor.c"].
Proof.
  apply (entity_ids_monotone
           (mkSession
              [States.mk None "sensor" "sensor.b" "on" "{}" None None
                         (Some (mkDatetime 630 (Some UTC))) None None None;
               States.mk None "sensor" "sensor.c" "on" "{}" None None
                         (Some (mkDatetime 659 (Some UTC))) None None None])
           (RecorderRuns.mk (Some 1%Z) (Some (mkDatetime 600 (Some UTC)))
                            None None None)
           (mkDatetime 645 (Some UTC)) (mkDatetime 700 (Some UTC))).
  - vm_compute. discriminate.
  - reflexivity.
  - reflexivity.
Defined.

(** X15.  For a point in time that is not after the start of the run,
    and on a run without a start, [entity_ids] answers the empty
    list. *)
Theorem entity_ids_empty_before_start :
  forall (session : Session) (run : RecorderRuns.t) (p : datetime),
    (forall s, RecorderRuns.start run = Some s ->
               (instant p <= instant s)%Z) ->
    RecorderRuns.entity_ids (Some session) run (Some p) = Return [].
Proof.
  intros session run p Hstart.
  destruct (RecorderRuns.entity_ids (Some session) run (Some p))
    as [ ids | x ] eqn:Hrun; [ | discriminate ].
  destruct ids as [ | e ids ]; [ reflexivity | exfalso ].
  assert (Hin : In e (e :: ids)) by now left.
  apply (entity_ids_In _ _ _ _ e Hrun) in Hin
    as (row & _ & _ & Hge & Hlt).
  simpl in Hlt. unfold ts_le in Hge.
  destruct (RecorderRuns.start run) as [ s | ]; [ | contradiction ].
  specialize (Hstart s eq_refl).
  destruct (States.last_updated row) as [ lu | ]; simpl in *; lia.
Qed.

Lemma entity_ids_empty_before_start_witness :
  RecorderRuns.entity_ids
    (Some (mkSession
             [States.mk None "sensor" "sensor.b" "on" "{}" None None
                        (Some (mkDatetime 630 (Some UTC))) None None None]))
    (RecorderRuns.mk (Some 1%Z) (Some (mkDatetime 600 (Some UTC)))
                     None None None)
    (Some (mkDatetime 600 (Some UTC))) = Return [].
Proof.
  apply entity_ids_empty_before_start.
  intros s [= <-]. vm_compute. discriminate.
Defined.

(** ** The function on the heap and the function on values, on an example *)

Lemma heap_filter_refines_witness :
  exists r h' payload,
    Heap._filter_state_change_event_data (Heap.VRef 0)
      [Heap.ODict [("entity_id", Heap.VStr "light.kitchen");
                   ("new_state", Heap.VRef 1)];
       Heap.OState "light.kitchen" "light" "on" 2 None None
                   (mkContext None None);
       Heap.ODict [("icon", Heap.VStr "mdi:lamp");
                   ("rgb_color", Heap.VRef 3)];
       Heap.OList [Heap.VInt 255; Heap.VInt 0; Heap.VInt 0]] =
      Return (Heap.VRef r, h') /\
    _filter_state_change_event_data
      [("entity_id", PStr "light.kitchen");
       ("new_state",
        PState "light.kitchen" "light" "on"
               [("icon", PStr "mdi:lamp");
                ("rgb_color", PList [PInt 255; PInt 0; PInt 0])]
               None None (mkContext None None))] = Return payload /\
    represents (fun _ => True) h' (Heap.VRef r) (PDict payload).
Proof.
  apply (heap_filter_refines
           [Heap.ODict [("entity_id", Heap.VStr "light.kitchen");
                        ("new_state", Heap.VRef 1)];
            Heap.OState "light.kitchen" "light" "on" 2 None None
                        (mkContext None None);
            Heap.ODict [("icon", Heap.VStr "mdi:lamp");
                        ("rgb_color", Heap.VRef 3)];
            Heap.OList [Heap.VInt 255; Heap.VInt 0; Heap.VInt 0]]
           0
           [("entity_id", Heap.VStr "light.kitchen");
            ("new_state", Heap.VRef 1)]).
  - reflexivity.
  - simpl. unfold entry_rel. simpl.
    repeat split.
    exists 1, 2. eexists.
    repeat split.
    exists 3. eexists. repeat split.
Defined.

(** X16.  On a run that has ended, [entity_ids] without a point in
    time is [entity_ids] at the end of the run. *)
Theorem entity_ids_closed_run :
  forall (object_session : option Session) (run : RecorderRuns.t)
         (e : datetime),
    RecorderRuns.end_ run = Some e ->
    RecorderRuns.entity_ids object_session run None =
    RecorderRuns.entity_ids object_session run (Some e).
Proof.
  intros object_session run e Hend. unfold RecorderRuns.entity_ids.
  destruct object_session as [ session | ]; [ | reflexivity ].
  now rewrite Hend.
Qed.

Lemma entity_ids_closed_run_witness :
  RecorderRuns.entity_ids
    (Some (mkSession
             [States.mk None "sensor" "sensor.b" "on" "{}" None None
                        (Some (mkDatetime 630 (Some UTC))) None None None;
              States.mk None "sensor" "sensor.d" "on" "{}" None None
                        (Some (mkDatetime 660 (Some UTC))) None None None]))
    (RecorderRuns.mk (Some 1%Z) (Some (mkDatetime 600 (Some UTC)))
                     (Some (mkDatetime 660 (Some UTC))) None None)
    None = Return ["sensor.b"].
Proof.
  rewrite (entity_ids_closed_run _ _ (mkDatetime 660 (Some UTC)));
    reflexivity.
Defined.
